(** * jsonrpc2: a shallow embedding of the JSON-RPC 2.0 dispatcher

    The development follows [jsonrpc2.go]: the reflective registry
    ([register], [isValidMethod]), the invoker ([call]) with its
    deferred [recover], the method-path check ([sanitizeMethodPath]),
    the response assembler and the single and batch request paths.

    Modelling conventions.
    - A Go pointer [*T] is [option T]; [nil] is [None].
    - An interface value ([any], [error]) is [option Dyn]: the nil
      interface is [None], anything else carries its dynamic value.
    - A [reflect.Value] is a [Value]; it remembers whether it is of
      interface kind, which is what [Value.Interface] looks at.
    - A runtime panic is the [Panic] result of the [Res] type; the
      payload is the [%s] rendering of the panic value.
    - A goroutine running [call] is modelled by the list of messages it
      sends on [respChan] and [errChan] and by how it ends.  Handlers are
      taken to return or panic.  A send succeeds while the coordinator
      is still receiving; once the coordinator has closed the channels
      a send panics.
    - The nondeterministic choice of [select] is resolved by an
      explicit schedule.
    - Byte-level JSON decoding and encoding belong to [encoding/json];
      the decoder is a parameter and the writer keeps the documents the
      encoder accepted: [json.Marshal] fails on a float that is not
      finite, and the code drops that error and writes no byte. *)

From Stdlib Require Import ZArith Ascii String.
From stdpp Require Import base option list strings gmap.

Local Open Scope string_scope.
Local Open Scope list_scope.
Local Open Scope Z_scope.

(** ** Error codes (file declaring [RpcErrorCode]) *)

Definition RpcErrorCode := Z.

Definition PARSE_ERROR : RpcErrorCode := 32700.
Definition INVALID_REQUEST : RpcErrorCode := 32600.
Definition METHOD_NOT_FOUND : RpcErrorCode := 32601.
Definition INVALID_PARAMS : RpcErrorCode := 32602.
Definition INTERNAL_ERROR : RpcErrorCode := 32603.

(** Modelled from the spec: the constant [RPC_VERSION] is used by
    [jsonrpc2.go] but declared in a file that is not part of the
    sources; the spec fixes the protocol version string to "2.0". *)
Definition RPC_VERSION : string := "2.0".

(** [net/http] status codes used by the writer. *)
Definition StatusOK : Z := 200.
Definition StatusNoContent : Z := 204.

(** ** Go values *)

(** [errors.New msg]; [Error] is the method of the [error] interface. *)
Inductive error := errors_New (msg : string).

Definition Error (e : error) : string :=
  match e with errors_New msg => msg end.

(** [context.Context], identified by a tag. *)
Inductive Context := mkContext (tag : nat).

Inductive GoType :=
| TBool
| TInt
| TFloat64
| TString
| TContext                 (* the interface context.Context *)
| TError                   (* the interface error *)
| TAny                     (* interface{} *)
| TRpcErrorCode
| TPtr (elem : GoType)
| TSlice (elem : GoType)
| TStruct (name : string).

(** Dynamic (non-interface) values, as they sit inside an [any]. *)
Inductive Dyn :=
| DBool (b : bool)
| DInt (z : Z)
| DFloat64 (bits : Z)                      (* the 64 bits of the float *)
| DString (s : string)
| DContext (c : Context)
| DError (e : error)                       (* *errors.errorString *)
| DCode (c : RpcErrorCode)                 (* RpcErrorCode *)
| DCodePtr (p : option RpcErrorCode)       (* *RpcErrorCode, maybe nil *)
| DNilPtr (elem : GoType)                  (* a nil pointer of another type *)
| DStruct (name : string).

(** [any]: the empty interface. *)
Definition any := option Dyn.

Definition typeOf (d : Dyn) : GoType :=
  match d with
  | DBool _ => TBool
  | DInt _ => TInt
  | DFloat64 _ => TFloat64
  | DString _ => TString
  | DContext _ => TPtr (TStruct "context.cancelCtx")
  | DError _ => TPtr (TStruct "errors.errorString")
  | DCode _ => TRpcErrorCode
  | DCodePtr _ => TPtr TRpcErrorCode
  | DNilPtr t => TPtr t
  | DStruct n => TStruct n
  end.

Fixpoint type_String (t : GoType) : string :=
  match t with
  | TBool => "bool"
  | TInt => "int"
  | TFloat64 => "float64"
  | TString => "string"
  | TContext => "context.Context"
  | TError => "error"
  | TAny => "interface {}"
  | TRpcErrorCode => "jsonrpc2.RpcErrorCode"
  | TPtr e => "*" +:+ type_String e
  | TSlice e => "[]" +:+ type_String e
  | TStruct n => n
  end.

#[global] Instance GoType_eq_dec : EqDecision GoType.
Proof. solve_decision. Defined.

(** Results of code that may panic. *)
Inductive Res (A : Type) :=
| Ok (a : A)
| Panic (v : string).
Arguments Ok {A} a.
Arguments Panic {A} v.

(** ** The part of [reflect] the dispatcher uses *)

Inductive Value :=
| VInvalid                              (* the zero Value *)
| VIface (t : GoType) (a : any)         (* a Value of interface kind *)
| VConcrete (d : Dyn).                  (* a Value of any other kind *)

(** [reflect.ValueOf]: unpacks the interface; nil gives the zero Value. *)
Definition ValueOf (a : any) : Value :=
  match a with
  | None => VInvalid
  | Some d => VConcrete d
  end.

(** [Value.Interface]: an interface-kind Value yields what it holds (nil
    included); any other Value is boxed, so a nil pointer becomes a
    non-nil interface. *)
Definition Interface (v : Value) : Res any :=
  match v with
  | VInvalid => Panic "reflect: call of reflect.Value.Interface on zero Value"
  | VIface _ a => Ok a
  | VConcrete d => Ok (Some d)
  end.

Definition Value_Type (v : Value) : option GoType :=
  match v with
  | VInvalid => None
  | VIface t _ => Some t
  | VConcrete d => Some (typeOf d)
  end.

(** [Type.AssignableTo] for the types above: identical types, or the
    target is an interface the source implements. *)
Definition AssignableTo (xt targ : GoType) : bool :=
  if decide (xt = targ) then true
  else match targ with
       | TAny => true
       | TContext => bool_decide (xt = TPtr (TStruct "context.cancelCtx"))
       | TError => bool_decide (xt = TPtr (TStruct "errors.errorString"))
       | _ => false
       end.

(** A function type: [ins] and [outs] are [Type.In] and [Type.Out], and
    [IsVariadic] tells whether the last input is a [...T] parameter, in
    which case it is listed in [ins] as the slice type [[]T]. *)
Record FuncType := { ins : list GoType; outs : list GoType; IsVariadic : bool }.

Definition NumIn (t : FuncType) : nat := length (ins t).
Definition NumOut (t : FuncType) : nat := length (outs t).

(** [reflect.Method], as returned by [Type.Method]. *)
Record reflect_Method := {
  Name : string;
  PkgPath : string;
  Type_ : FuncType
}.

(** [Method.IsExported]: the package path is empty. *)
Definition IsExported (m : reflect_Method) : bool :=
  bool_decide (PkgPath m = "").

(** A bound method value, as returned by [Value.Method]: its type has
    no receiver, and [run] is the Go function behind it. *)
Record MethodValue := {
  mtype : FuncType;
  run : list Value -> Res (list Value)
}.

Fixpoint check_zero (xs : list Value) : Res unit :=
  match xs with
  | [] => Ok tt
  | VInvalid :: _ => Panic "reflect: Call using zero Value argument"
  | _ :: r => check_zero r
  end.

Fixpoint check_assignable (xs : list Value) (ts : list GoType) : Res unit :=
  match xs, ts with
  | x :: xr, t :: tr =>
      match Value_Type x with
      | Some xt =>
          if AssignableTo xt t then check_assignable xr tr
          else Panic ("reflect: Call using " +:+ type_String xt
                        +:+ " as type " +:+ type_String t)
      | None => Panic "reflect: Call using zero Value argument"
      end
  | _, _ => Ok tt
  end.

(** [Type.Elem] of the last input of a variadic function. *)
Definition variadic_elem (t : FuncType) : GoType :=
  match last (ins t) with
  | Some (TSlice e) => e
  | Some other => other
  | None => TAny
  end.

Fixpoint check_variadic (xs : list Value) (elem : GoType) : Res unit :=
  match xs with
  | [] => Ok tt
  | x :: xr =>
      match Value_Type x with
      | Some xt =>
          if AssignableTo xt elem then check_variadic xr elem
          else Panic ("reflect: cannot use " +:+ type_String xt
                        +:+ " as type " +:+ type_String elem +:+ " in Call")
      | None => Panic "reflect: Call using zero Value argument"
      end
  end.

(** [Value.Call]: the number of arguments, zero Values and
    assignability are checked, then the function runs.  For a variadic
    function [n] counts the inputs before the [...T] parameter, any
    number of further arguments is accepted, and each of them must be
    assignable to [T]; the function gets them after the first [n], in
    order (in Go, packed into one slice). *)
Definition Call (m : MethodValue) (params : list Value) : Res (list Value) :=
  let t := mtype m in
  let n := if IsVariadic t then (NumIn t - 1)%nat else NumIn t in
  if (length params <? n)%nat then
    Panic "reflect: Call with too few input arguments"
  else if negb (IsVariadic t) && (n <? length params)%nat then
    Panic "reflect: Call with too many input arguments"
  else match check_zero params with
       | Panic v => Panic v
       | Ok _ =>
           match check_assignable (take n params) (take n (ins t)) with
           | Panic v => Panic v
           | Ok _ =>
               match (if IsVariadic t
                      then check_variadic (drop n params) (variadic_elem t)
                      else Ok tt) with
               | Panic v => Panic v
               | Ok _ => run m params
               end
           end
       end.

(** ** The types of [jsonrpc2.go] *)

(** Message on [errChan]. *)
Record callerError := {
  err : error;
  code : RpcErrorCode;
  ce_reqId : option string
}.

(** Message on [respChan]. *)
Record callerSuccess := {
  data : any;
  cs_reqId : option string
}.

Record request := {
  Id : option string;        (* nil for a notification *)
  Method : string;
  Params : list any;
  Jsonrpc : string
}.

Record errorResponse := {
  Code : RpcErrorCode;
  Data : option any;         (* the [*any] stored in the field *)
  Message : string
}.

Record response := {
  res_Jsonrpc : string;
  res_Id : option string;
  Result : option any;
  Error_ : option errorResponse
}.

Record service := {
  methods : gmap string MethodValue;
  name : string
}.

Record jsonRpcImpl := {
  services : gmap string service
}.

Record batchServiceRequestType := {
  methodName : string;
  req : request;
  bs_service : service
}.

Definition NewJsonRpc : jsonRpcImpl := {| services := ∅ |}.

(** ** Registration *)

(** A method of the registered value's type.  [reflect] only lists the
    exported methods of a non-interface type. *)
Record GoMethod := {
  gm_name : string;
  gm_params : list GoType;
  gm_results : list GoType;
  gm_variadic : bool;
  gm_run : list Value -> Res (list Value)
}.

(** The value handed to [Register]: its type name, its type, and its
    method set in the order [reflect] enumerates it. *)
Record ServiceValue := {
  sv_typeName : string;
  sv_type : GoType;
  sv_methods : list GoMethod
}.

Definition Value_NumMethod (srv : ServiceValue) : nat :=
  length (sv_methods srv).

(** [reflect.ValueOf(srv).Method(m)]: a bound method value. *)
Definition Value_Method (gm : GoMethod) : MethodValue :=
  {| mtype := {| ins := gm_params gm; outs := gm_results gm;
                 IsVariadic := gm_variadic gm |};
     run := gm_run gm |}.

(** [reflect.ValueOf(srv).Type().Method(m)]: for a non-interface type
    the function type has the receiver as its first input. *)
Definition Type_Method (srv : ServiceValue) (gm : GoMethod) : reflect_Method :=
  {| Name := gm_name gm;
     PkgPath := "";
     Type_ := {| ins := sv_type srv :: gm_params gm; outs := gm_results gm;
                 IsVariadic := gm_variadic gm |} |}.

Definition isValidMethod (methodType : reflect_Method) : bool :=
  if negb (IsExported methodType) then false
  else if (NumIn (Type_ methodType) =? 0)%nat then false
  else if negb (NumOut (Type_ methodType) =? 3)%nat then false
  else true.

(** The loop of [register] over the method set. *)
Definition collect_methods (srv : ServiceValue) : gmap string MethodValue :=
  foldl (fun ms gm =>
           if isValidMethod (Type_Method srv gm)
           then <[gm_name gm := Value_Method gm]> ms
           else ms)
        ∅ (sv_methods srv).

Definition no_method_error : error :=
  errors_New "No method registered for this service".

(** [register] updates the receiver and returns the error. *)
Definition register (rpc : jsonRpcImpl) (srv : ServiceValue) (nm : option string)
  : jsonRpcImpl * option error :=
  if (Value_NumMethod srv =? 0)%nat then (rpc, Some no_method_error)
  else
    let service_name := match nm with
                        | None => sv_typeName srv
                        | Some n => n
                        end in
    let svc := {| methods := collect_methods srv; name := service_name |} in
    let rpc' := {| services := <[service_name := svc]> (services rpc) |} in
    if (size (services rpc') =? 0)%nat then (rpc', Some no_method_error)
    else (rpc', None).

Definition Register (rpc : jsonRpcImpl) (srv : ServiceValue) :=
  register rpc srv None.

Definition RegisterWithName (rpc : jsonRpcImpl) (srv : ServiceValue) (nm : string) :=
  register rpc srv (Some nm).

(** ** The invoker *)

(** What a goroutine running [call] sends, in order. *)
Inductive ChanMsg :=
| OnRespChan (m : callerSuccess)
| OnErrChan (m : callerError).

(** What a sender finds: the coordinator is still receiving, or it has
    left its [select] and closed both channels. *)
Inductive ChanState := ChanOpen | ChanClosed.

(** A computation that sends messages and may panic. *)
Definition Go (A : Type) : Type :=
  ChanState -> list ChanMsg -> list ChanMsg * Res A.

#[global] Instance Go_ret : MRet Go := fun A a _ tr => (tr, Ok a).
#[global] Instance Go_bind : MBind Go := fun A B f m c tr =>
  match m c tr with
  | (tr', Ok a) => f a c tr'
  | (tr', Panic v) => (tr', Panic v)
  end.

(** [ch <- m]: delivered while the channels are open; on closed
    channels the send panics (a sender already waiting panics when the
    channel is closed under it). *)
Definition send (m : ChanMsg) : Go unit := fun c tr =>
  match c with
  | ChanOpen => (tr ++ [m], Ok tt)
  | ChanClosed => (tr, Panic "send on closed channel")
  end.

Definition lift {A} (r : Res A) : Go A := fun _ tr => (tr, r).

(** [defer func() { if err := recover(); err != nil { ... } }()] around
    the rest of the function body. *)
Definition defer_recover (handler : string -> Go unit) (body : Go unit) : Go unit :=
  fun c tr =>
    match body c tr with
    | (tr', Panic v) => handler v c tr'
    | (tr', Ok u) => (tr', Ok u)
    end.

(** [resp[i]] *)
Definition index (resp : list Value) (i : nat) : Res Value :=
  match resp !! i with
  | Some v => Ok v
  | None => Panic "runtime error: index out of range"
  end.

(** [errCode.( *RpcErrorCode)] *)
Definition assert_CodePtr (a : any) : Res (option RpcErrorCode) :=
  match a with
  | Some (DCodePtr p) => Ok p
  | Some d => Panic ("interface conversion: interface {} is "
                       +:+ type_String (typeOf d) +:+ ", not *jsonrpc2.RpcErrorCode")
  | None => Panic "interface conversion: interface {} is nil, not *jsonrpc2.RpcErrorCode"
  end.

(** [*p] *)
Definition deref {A} (p : option A) : Res A :=
  match p with
  | Some x => Ok x
  | None => Panic "runtime error: invalid memory address or nil pointer dereference"
  end.

(** [x.(error)] *)
Definition assert_error (a : any) : Res error :=
  match a with
  | Some (DError e) => Ok e
  | Some d => Panic ("interface conversion: " +:+ type_String (typeOf d)
                       +:+ " is not error: missing method Error")
  | None => Panic "interface conversion: interface is nil, not error"
  end.

Definition method_missing (methodName sname : string) : error :=
  errors_New ("Method " +:+ methodName +:+ " does not exist on service " +:+ sname).

Definition panic_error (v : string) : error :=
  errors_New ("Internal error: Panic " +:+ v).

(** The statements of [call] after the [defer].  The deferred function
    also prints the recovered value on standard output, which is not
    part of the model. *)
Definition call_body (method : MethodValue) (params : list Value)
    (id : option string) : Go unit :=
  resp ← lift (Call method params);
  r1 ← lift (index resp 1);
  e ← lift (Interface r1);
  match e with
  | Some _ =>
      r2 ← lift (index resp 2);
      errCode ← lift (Interface r2);
      code ← match errCode with
             | None => mret INTERNAL_ERROR
             | Some _ => p ← lift (assert_CodePtr errCode); lift (deref p)
             end;
      errorResponse ← lift (assert_error e);
      send (OnErrChan {| err := errorResponse; code := code; ce_reqId := id |})
  | None =>
      r0 ← lift (index resp 0);
      d ← lift (Interface r0);
      send (OnRespChan {| data := d; cs_reqId := id |})
  end.

Definition call (s : service) (ctx : Context) (methodName : string)
    (args : list any) (id : option string) : Go unit :=
  match methods s !! methodName with
  | None =>
      send (OnErrChan {| err := method_missing methodName (name s);
                         code := METHOD_NOT_FOUND;
                         ce_reqId := id |})
  | Some method =>
      let params := ValueOf (Some (DContext ctx)) :: map ValueOf args in
      defer_recover
        (fun v => send (OnErrChan {| err := panic_error v;
                                     code := INTERNAL_ERROR;
                                     ce_reqId := id |}))
        (call_body method params id)
  end.

(** The messages a goroutine started with [go s.call(...)] sends while
    the coordinator is receiving. *)
Definition outcome (s : service) (ctx : Context) (methodName : string)
    (args : list any) (id : option string) : list ChanMsg :=
  fst (call s ctx methodName args id ChanOpen []).

(** How the same goroutine ends when the coordinator has closed the
    channels before it sends. *)
Definition abandoned (s : service) (ctx : Context) (methodName : string)
    (args : list any) (id : option string) : Res unit :=
  snd (call s ctx methodName args id ChanClosed []).

(** ** Method paths *)

(** [strings.Contains(s, sep)] and [strings.Split(s, sep)] for a
    one-character separator, which is how the dispatcher calls them. *)
Fixpoint strings_Contains (s : string) (sep : ascii) : bool :=
  match s with
  | EmptyString => false
  | String c r => if decide (c = sep) then true else strings_Contains r sep
  end.

Fixpoint strings_Split (s : string) (sep : ascii) : list string :=
  match s with
  | EmptyString => [EmptyString]
  | String c r =>
      if decide (c = sep) then EmptyString :: strings_Split r sep
      else match strings_Split r sep with
           | h :: t => String c h :: t
           | [] => [String c EmptyString]
           end
  end.

Definition dot : ascii := "."%char.

(** The Go function returns [(serviceName, methodName, err)] with the
    two pointers set exactly when [err] is nil.  The last branch stands
    for the index panic of [n[1]]; [strings_Split_Contains] shows it is
    never taken. *)
Definition sanitizeMethodPath (method : string) : error + (string * string) :=
  if negb (strings_Contains method dot) then inl (errors_New "Invalid method name")
  else match strings_Split method dot with
       | n0 :: n1 :: _ => inr (n0, n1)
       | _ => inl (errors_New "runtime error: index out of range")
       end.

(** ** Responses *)

Definition makeErrorResponse (e : error) (errCode : RpcErrorCode)
    (dat : option any) (id : option string) : response :=
  {| res_Jsonrpc := RPC_VERSION;
     res_Id := id;
     Result := None;
     Error_ := Some {| Code := errCode; Message := Error e; Data := dat |} |}.

Definition makeSuccessResponse (dat : option any) (id : option string) : response :=
  {| res_Jsonrpc := RPC_VERSION;
     res_Id := id;
     Result := dat;
     Error_ := None |}.

(** What was handed to [json.Marshal] and then written. *)
Inductive Doc :=
| DocResponse (r : response)
| DocBatch (rs : list response).

(** A float64 is finite when its eleven exponent bits are not all set;
    the other bit patterns are the infinities and the NaNs. *)
Definition float64_finite (bits : Z) : bool :=
  negb (Z.land (Z.shiftr bits 52) 2047 =? 2047).

(** Whether [encoding/json] can encode a value: of the values of the
    model only a float that is not finite is refused ("json: unsupported
    value"). *)
Definition encodable (a : any) : bool :=
  match a with
  | Some (DFloat64 bits) => float64_finite bits
  | _ => true
  end.

Definition response_encodable (r : response) : bool :=
  match Result r with
  | Some a => encodable a
  | None => true
  end
  && match Error_ r with
     | Some e => match Data e with Some a => encodable a | None => true end
     | None => true
     end.

(** [json.Marshal]: the bytes of the document, or [None] for the error. *)
Definition json_Marshal (d : Doc) : option Doc :=
  match d with
  | DocResponse r => if response_encodable r then Some d else None
  | DocBatch rs => if forallb response_encodable rs then Some d else None
  end.

(** [http.ResponseWriter]: the status line, the header map as
    [w.Header()] shows it, and the documents written to the body.  An
    entry put in the map after [WriteHeader] is in the map and is not
    part of what was sent. *)
Record ResponseWriter := {
  w_status : option Z;
  w_header : gmap string string;
  w_body : list Doc
}.

Definition new_writer : ResponseWriter :=
  {| w_status := None; w_header := ∅; w_body := [] |}.

(** Only the first [WriteHeader] sets the status. *)
Definition WriteHeader (c : Z) (w : ResponseWriter) : ResponseWriter :=
  match w_status w with
  | Some _ => w
  | None => {| w_status := Some c; w_header := w_header w; w_body := w_body w |}
  end.

Definition Header_Set (k v : string) (w : ResponseWriter) : ResponseWriter :=
  {| w_status := w_status w; w_header := <[k := v]> (w_header w); w_body := w_body w |}.

Definition Write (d : Doc) (w : ResponseWriter) : ResponseWriter :=
  let w1 := WriteHeader StatusOK w in
  {| w_status := w_status w1; w_header := w_header w1; w_body := w_body w1 ++ [d] |}.

(** [w.Write(r)] for [r, _ := json.Marshal(...)]: when the encoder
    failed [r] is nil and no byte is written. *)
Definition Write_bytes (r : option Doc) (w : ResponseWriter) : ResponseWriter :=
  match r with
  | Some d => Write d w
  | None => WriteHeader StatusOK w
  end.

Definition writeResponse (w : ResponseWriter) (res : response) (id : option string)
  : ResponseWriter :=
  match id with
  | None => WriteHeader StatusNoContent w
  | Some _ =>
      let r := json_Marshal (DocResponse res) in
      Write_bytes r
        (Header_Set "Content-Type" "application/json" (WriteHeader StatusOK w))
  end.

Definition has_id (resp : response) : bool :=
  match res_Id resp with
  | Some _ => true
  | None => false
  end.

Definition writeBatchResponse (w : ResponseWriter) (responses : list response)
  : ResponseWriter :=
  let validResponses :=
    foldl (fun acc resp => if has_id resp then acc ++ [resp] else acc) [] responses in
  let r := json_Marshal (DocBatch validResponses) in
  Write_bytes r (WriteHeader StatusOK w).

Definition writeSuccessResponse (w : ResponseWriter) (dat : any) (id : option string) :=
  writeResponse w (makeSuccessResponse (Some dat) id) id.

Definition writeErrorResponse (w : ResponseWriter) (e : error) (errCode : RpcErrorCode)
    (id : option string) (dat : any) :=
  writeResponse w (makeErrorResponse e errCode (Some dat) id) id.

(** ** Scheduling *)

(** One [select]: either the message of the [k]-th goroutine still
    waiting to send is received, or [ctx.Done()] is. *)
Inductive Choice :=
| Recv (k : nat)
| CtxDone.

(** How a coordinator ends: it returns, the runtime aborts the process
    with a fatal error, it waits forever, or it returns and the
    goroutine it left behind then panics outside any [recover], which
    ends the process. *)
Inductive Run (A : Type) :=
| Returns (a : A)
| Fatal (msg : string)
| Blocks
| ReturnsThenPanic (a : A) (v : string).
Arguments Returns {A} a.
Arguments Fatal {A} msg.
Arguments Blocks {A}.
Arguments ReturnsThenPanic {A} a v.

#[global] Instance Run_ret : MRet Run := fun A a => Returns a.
#[global] Instance Run_bind : MBind Run := fun A B f m =>
  match m with
  | Returns a => f a
  | Fatal msg => Fatal msg
  | Blocks => Blocks
  | ReturnsThenPanic a v =>
      match f a with
      | Returns b => ReturnsThenPanic b v
      | other => other
      end
  end.

(** The message received for [Recv k]; an index past the end stands for
    the first waiting sender. *)
Definition pick (k : nat) (pending : list ChanMsg) : option (ChanMsg * list ChanMsg) :=
  match pending !! k with
  | Some m => Some (m, delete k pending)
  | None =>
      match pending with
      | m :: rest => Some (m, rest)
      | [] => None
      end
  end.

(** [sync.Mutex] *)
Inductive Mutex := Unlocked | Locked.

Definition Lock (mu : Mutex) : Run Mutex :=
  match mu with
  | Unlocked => Returns Locked
  | Locked => Blocks
  end.

Definition Unlock (mu : Mutex) : Run Mutex :=
  match mu with
  | Locked => Returns Unlocked
  | Unlocked => Fatal "fatal error: sync: unlock of unlocked mutex"
  end.

(** ** The single-request path *)

Definition invalid_version : error :=
  errors_New "Invalid RPC version. jsonrpc must be 2.0".

Definition not_registered (serviceName : string) : error :=
  errors_New ("Service " +:+ serviceName +:+ " is not registered").

Definition handleSingleRequest (s : jsonRpcImpl) (ctx : Context) (ch : Choice)
    (w : ResponseWriter) (req : request) : Run ResponseWriter :=
  if negb (bool_decide (Jsonrpc req = RPC_VERSION)) then
    Returns (writeErrorResponse w invalid_version INVALID_REQUEST (Id req) None)
  else match sanitizeMethodPath (Method req) with
  | inl e => Returns (writeErrorResponse w e PARSE_ERROR (Id req) None)
  | inr (serviceName, methodName) =>
      match services s !! serviceName with
      | None =>
          Returns (writeErrorResponse w (not_registered serviceName)
                     METHOD_NOT_FOUND (Id req) None)
      | Some svc =>
          let pending := outcome svc ctx methodName (Params req) (Id req) in
          match ch with
          | CtxDone =>
              let w' := writeErrorResponse w (errors_New "Request canceled")
                          INTERNAL_ERROR (Id req) None in
              (* close(respChan); close(errChan): the goroutine started
                 above has not been received from and is left to send *)
              match abandoned svc ctx methodName (Params req) (Id req) with
              | Panic v => ReturnsThenPanic w' v
              | Ok _ => Returns w'
              end
          | Recv k =>
              match pick k pending with
              | Some (OnErrChan e, _) =>
                  Returns (writeErrorResponse w (err e) (code e) (ce_reqId e) None)
              | Some (OnRespChan d, _) =>
                  Returns (writeSuccessResponse w (data d) (cs_reqId d))
              | None => Blocks
              end
          end
      end
  end.

(** ** The batch path *)

(** The first loop of [handleBatchRequest]: one step per request, on the
    pair [(responses, validServices)]. *)
Definition validate_step (s : jsonRpcImpl)
    (acc : list response * list batchServiceRequestType) (rq : request)
  : list response * list batchServiceRequestType :=
  let '(responses, validServices) := acc in
  if negb (bool_decide (Jsonrpc rq = RPC_VERSION)) then
    (responses ++ [makeErrorResponse invalid_version INVALID_REQUEST None (Id rq)],
     validServices)
  else match sanitizeMethodPath (Method rq) with
  | inl e =>
      (responses ++ [makeErrorResponse e PARSE_ERROR None (Id rq)], validServices)
  | inr (serviceName, methodName) =>
      match services s !! serviceName with
      | None =>
          (responses ++ [makeErrorResponse (not_registered serviceName)
                           METHOD_NOT_FOUND None (Id rq)],
           validServices)
      | Some svc =>
          (responses,
           validServices ++ [{| req := rq; bs_service := svc; methodName := methodName |}])
      end
  end.

Definition validate (s : jsonRpcImpl) (requests : list request)
  : list response * list batchServiceRequestType :=
  foldl (validate_step s) ([], []) requests.

(** The goroutines of the second loop, by what they will send. *)
Definition fan_out (ctx : Context) (validServices : list batchServiceRequestType)
  : list ChanMsg :=
  flat_map (fun v => outcome (bs_service v) ctx (methodName v)
                       (Params (req v)) (Id (req v)))
           validServices.

Definition not_completed : error :=
  errors_New "Request was not able to complete".

(** One [select] of the fan-in loop. *)
Definition select_step (ch : Choice) (pending : list ChanMsg)
    (responses : list response) (mu : Mutex)
  : Run (list ChanMsg * list response * Mutex) :=
  match ch with
  | Recv k =>
      match pick k pending with
      | Some (OnErrChan e, rest) =>
          mu1 ← Lock mu;
          let responses := responses ++ [makeErrorResponse (err e) (code e) None (ce_reqId e)] in
          mu2 ← Unlock mu1;
          mret (rest, responses, mu2)
      | Some (OnRespChan r, rest) =>
          mu1 ← Lock mu;
          let responses := responses ++ [makeSuccessResponse (Some (data r)) (cs_reqId r)] in
          mu2 ← Unlock mu1;
          mret (rest, responses, mu2)
      | None => Blocks
      end
  | CtxDone =>
      let e := not_completed in
      mu1 ← Unlock mu;
      let responses := responses ++ [makeErrorResponse e INTERNAL_ERROR None None] in
      mu2 ← Unlock mu1;
      mret (pending, responses, mu2)
  end.

(** [for range validServices { select { ... } }]: [n] iterations, the
    [i]-th one resolved by the [i]-th choice of the schedule. *)
Fixpoint fan_in (n : nat) (sched : list Choice) (pending : list ChanMsg)
    (responses : list response) (mu : Mutex) : Run (list response * Mutex) :=
  match n with
  | O => Returns (responses, mu)
  | S n' =>
      let ch := match sched with c :: _ => c | [] => Recv 0 end in
      '(pending', responses', mu') ← select_step ch pending responses mu;
      fan_in n' (tail sched) pending' responses' mu'
  end.

Definition handleBatchRequest (s : jsonRpcImpl) (ctx : Context) (sched : list Choice)
    (w : ResponseWriter) (requests : list request) : Run ResponseWriter :=
  let '(responses, validServices) := validate s requests in
  let mu := Unlocked in
  let pending := fan_out ctx validServices in
  '(responses', _) ← fan_in (length validServices) sched pending responses mu;
  mret (writeBatchResponse w responses').

(** ** Decoding and the entry point *)

(** [json.Unmarshal] into a [request] and into a [[]request]; [None] is
    a non-nil error. *)
Record json_Decoder := {
  Unmarshal_request : list Byte.byte -> option request;
  Unmarshal_batch : list Byte.byte -> option (list request)
}.

(** [*http.Request]: what [io.ReadAll(r.Body)] returns, and the context. *)
Record http_Request := {
  r_Body : error + list Byte.byte;
  r_Context : Context
}.

Definition readRequest (dec : json_Decoder) (r : http_Request)
  : option request * list request * option error :=
  match r_Body r with
  | inl e => (None, [], Some e)
  | inr body =>
      match Unmarshal_request dec body with
      | Some singleRequest => (Some singleRequest, [], None)
      | None =>
          match Unmarshal_batch dec body with
          | Some batchRequest => (None, batchRequest, None)
          | None => (None, [], Some (errors_New "Unable to decode request"))
          end
      end
  end.

Definition handle (dec : json_Decoder) (s : jsonRpcImpl) (sched : list Choice)
    (w : ResponseWriter) (r : http_Request) : Run ResponseWriter :=
  let '(singleRequest, batchRequest, e) := readRequest dec r in
  match e with
  | Some e => Returns (writeErrorResponse w e PARSE_ERROR None None)
  | None =>
      match singleRequest with
      | Some rq =>
          handleSingleRequest s (r_Context r)
            (match sched with c :: _ => c | [] => Recv 0 end) w rq
      | None => handleBatchRequest s (r_Context r) sched w batchRequest
      end
  end.

Definition ServeHTTP := handle.

(** ** The spec's reading of the validation rules *)

(** The calling convention in the spec's words: the method is exported,
    it has at least one input parameter and the first one is the
    context, and it has exactly three outputs.  The inputs of a method
    taken from a type start with the receiver, so the first parameter is
    the second input. *)
Definition spec_callingConvention (m : reflect_Method) : bool :=
  IsExported m
  && match ins (Type_ m) with
     | _ :: p :: _ => bool_decide (p = TContext)
     | _ => false
     end
  && (NumOut (Type_ m) =? 3)%nat.

(** The method path in the spec's words: exactly one separator, with a
    non-empty service part before it and a non-empty method part after. *)
Definition spec_validPath (method : string) : bool :=
  match strings_Split method dot with
  | [sname; mname] => negb (bool_decide (sname = "")) && negb (bool_decide (mname = ""))
  | _ => false
  end.

(** ** Services used as concrete inputs *)

(** The methods of the test file's [testType]; the test expects the
    first three to be rejected and the fifth to be accepted. *)
Definition no_body : list Value -> Res (list Value) := fun _ => Ok [].

Definition FuncCheck1 : GoMethod :=
  {| gm_name := "FuncCheck1"; gm_params := []; gm_results := []; gm_variadic := false;
     gm_run := no_body |}.

Definition FuncCheck2 : GoMethod :=
  {| gm_name := "FuncCheck2"; gm_params := [TContext]; gm_results := [];
     gm_variadic := false;
     gm_run := no_body |}.

Definition FuncCheck3 : GoMethod :=
  {| gm_name := "FuncCheck3"; gm_params := [TContext];
     gm_results := [TString; TError];
     gm_variadic := false;
     gm_run := fun _ => Ok [VConcrete (DString ""); VIface TError None] |}.

Definition FuncCheck5 : GoMethod :=
  {| gm_name := "FuncCheck5"; gm_params := [TContext];
     gm_results := [TString; TError; TPtr TRpcErrorCode];
     gm_variadic := false;
     gm_run := fun _ => Ok [VConcrete (DString ""); VIface TError None;
                            VConcrete (DCodePtr (Some INTERNAL_ERROR))] |}.

(** A value whose exported methods all break the convention. *)
Definition invalidOnly : ServiceValue :=
  {| sv_typeName := "testType"; sv_type := TStruct "testType";
     sv_methods := [FuncCheck1; FuncCheck2; FuncCheck3] |}.

(** A value with no method at all. *)
Definition noMethods : ServiceValue :=
  {| sv_typeName := "empty"; sv_type := TStruct "empty"; sv_methods := [] |}.

(** [func (testType) NoContext() (string, error, *RpcErrorCode)]: three
    outputs, no context parameter. *)
Definition NoContext : GoMethod :=
  {| gm_name := "NoContext"; gm_params := [];
     gm_results := [TString; TError; TPtr TRpcErrorCode];
     gm_variadic := false;
     gm_run := fun _ => Ok [VConcrete (DString ""); VIface TError None;
                            VConcrete (DCodePtr None)] |}.

Definition NoContext_method : reflect_Method :=
  Type_Method invalidOnly NoContext.

(** A service in the shape of the test file's [arith]: [Echo] returns
    its argument, [ErrorMethod] fails with a code, [Fail] fails without
    one, [Boom] panics. *)
Definition Boom : GoMethod :=
  {| gm_name := "Boom"; gm_params := [TContext];
     gm_results := [TString; TError; TPtr TRpcErrorCode];
     gm_variadic := false;
     gm_run := fun _ => Panic "boom" |}.

Definition Echo : GoMethod :=
  {| gm_name := "Echo"; gm_params := [TContext; TString];
     gm_results := [TString; TError; TPtr TRpcErrorCode];
     gm_variadic := false;
     gm_run := fun params =>
       match params with
       | [_; VConcrete (DString s)] =>
           Ok [VConcrete (DString s); VIface TError None; VConcrete (DCodePtr None)]
       | _ => Panic "unreachable"
       end |}.

Definition ErrorMethod : GoMethod :=
  {| gm_name := "ErrorMethod"; gm_params := [TContext];
     gm_results := [TPtr TInt; TError; TPtr TRpcErrorCode];
     gm_variadic := false;
     gm_run := fun _ =>
       Ok [VConcrete (DNilPtr TInt);
           VIface TError (Some (DError (errors_New "Some error here")));
           VConcrete (DCodePtr (Some INVALID_PARAMS))] |}.

Definition Fail : GoMethod :=
  {| gm_name := "Fail"; gm_params := [TContext];
     gm_results := [TString; TError; TPtr TRpcErrorCode];
     gm_variadic := false;
     gm_run := fun _ =>
       Ok [VConcrete (DString "");
           VIface TError (Some (DError (errors_New "failed")));
           VConcrete (DCodePtr None)] |}.

Definition arith : ServiceValue :=
  {| sv_typeName := "arith"; sv_type := TStruct "arith";
     sv_methods := [Boom; Echo; ErrorMethod; Fail] |}.

Definition arithSvc : service :=
  {| methods := collect_methods arith; name := "Arith" |}.

(** The registry of the test suite: [RegisterWithName(arith{}, "Arith")]. *)
Definition testRpc : jsonRpcImpl :=
  fst (RegisterWithName NewJsonRpc arith "Arith").

Definition bg : Context := mkContext 0.

(** Requests used as concrete inputs. *)
Definition noSeparator : request :=
  {| Id := Some "1"; Method := "ArithAdd"; Params := []; Jsonrpc := "2.0" |}.

(** The parameters [call] passes to [Value.Call]. *)
Definition call_params (ctx : Context) (args : list any) : list Value :=
  ValueOf (Some (DContext ctx)) :: map ValueOf args.

(** The response entry the fan-in loop builds for a received message. *)
Definition response_of (m : ChanMsg) : response :=
  match m with
  | OnErrChan e => makeErrorResponse (err e) (code e) None (ce_reqId e)
  | OnRespChan r => makeSuccessResponse (Some (data r)) (cs_reqId r)
  end.

(** The request id a message carries. *)
Definition msg_id (m : ChanMsg) : option string :=
  match m with
  | OnErrChan e => ce_reqId e
  | OnRespChan r => cs_reqId r
  end.


(** The registries that [NewJsonRpc] and [register] can build. *)
Inductive registered : jsonRpcImpl -> Prop :=
| registered_new : registered NewJsonRpc
| registered_step rpc srv nm :
    registered rpc -> registered (fst (register rpc srv nm)).

(** A decoder that knows two payloads and fails on everything else. *)
Definition jstr (s : string) : string :=
  String (ascii_of_nat 34) s +:+ String (ascii_of_nat 34) EmptyString.

Definition echoPayload : string :=
  "{" +:+ jstr "jsonrpc" +:+ ":" +:+ jstr "2.0" +:+ ","
      +:+ jstr "id" +:+ ":" +:+ jstr "1" +:+ ","
      +:+ jstr "method" +:+ ":" +:+ jstr "Arith.Echo" +:+ ","
      +:+ jstr "params" +:+ ":[" +:+ jstr "hi" +:+ "]}".

Definition echoRequest : request :=
  {| Id := Some "1"; Method := "Arith.Echo"; Params := [Some (DString "hi")];
     Jsonrpc := "2.0" |}.

Definition tableDecoder : json_Decoder :=
  {| Unmarshal_request := fun body =>
       if String.eqb (string_of_list_byte body) echoPayload then Some echoRequest
       else None;
     Unmarshal_batch := fun body =>
       if String.eqb (string_of_list_byte body) ("[" +:+ echoPayload +:+ "]")
       then Some [echoRequest]
       else None |}.

(** A body that is not JSON. *)
Definition garbage : http_Request :=
  {| r_Body := inr (list_byte_of_string "{not json"); r_Context := bg |}.

(** A notification, and a request with the wrong version. *)
Definition echoNotification : request :=
  {| Id := None; Method := "Arith.Echo"; Params := [Some (DString "quiet")];
     Jsonrpc := "2.0" |}.

Definition oldVersion : request :=
  {| Id := Some "3"; Method := "Arith.Echo"; Params := []; Jsonrpc := "1.1" |}.

(** The request id of a scheduled call. *)
Definition scheduled_id (v : batchServiceRequestType) : option string := Id (req v).


Definition strangerRequest : request :=
  {| Id := Some "4"; Method := "Geometry.Area"; Params := []; Jsonrpc := "2.0" |}.

(** The remaining method of [testType], and the whole type. *)
Definition FuncCheck4 : GoMethod :=
  {| gm_name := "FuncCheck4"; gm_params := [TContext];
     gm_results := [TString; TError; TInt];
     gm_variadic := false;
     gm_run := fun _ => Ok [VConcrete (DString ""); VIface TError None;
                            VConcrete (DInt 1)] |}.

Definition testType : ServiceValue :=
  {| sv_typeName := "testType"; sv_type := TStruct "testType";
     sv_methods := [FuncCheck1; FuncCheck2; FuncCheck3; FuncCheck4; FuncCheck5] |}.

(** As in the README: the third output is an [RpcErrorCode], not a
    pointer to one. *)
Definition UpdateFirstName : GoMethod :=
  {| gm_name := "UpdateFirstName"; gm_params := [TContext; TInt; TString];
     gm_results := [TStruct "User"; TError; TRpcErrorCode];
     gm_variadic := false;
     gm_run := fun _ =>
       Ok [VConcrete (DStruct "User");
           VIface TError (Some (DError (errors_New "Some error")));
           VConcrete (DCode INVALID_PARAMS)] |}.

Definition userSvc : service :=
  {| methods := {[ "UpdateFirstName" := Value_Method UpdateFirstName ]};
     name := "UserService" |}.

(** The requests of the tests on versions and on batches. *)
Definition echoRequest2 : request :=
  {| Id := Some "2"; Method := "Arith.Echo"; Params := [Some (DString "ho")];
     Jsonrpc := "2.0" |}.

(** The key [register] stores a service under. *)
Definition service_key (srv : ServiceValue) (nm : option string) : string :=
  match nm with
  | None => sv_typeName srv
  | Some n => n
  end.

(** A second implementation of the test file's [arith], with other
    method bodies, used to register twice under one name. *)
Definition arith2 : ServiceValue :=
  {| sv_typeName := "arith"; sv_type := TStruct "arith";
     sv_methods := [Echo; FuncCheck3; FuncCheck5] |}.

(** [strings.Join(elems, sep)], the inverse of [strings.Split]; used to
    state what the pieces add up to. *)
Fixpoint strings_Join (elems : list string) (sep : ascii) : string :=
  match elems with
  | [] => EmptyString
  | [x] => x
  | x :: rest => x +:+ String sep (strings_Join rest sep)
  end.

(** A response as the JSON-RPC envelope wants it: the fixed version, and
    either a result or an error, never both and never neither. *)
Definition well_formed (r : response) : Prop :=
  res_Jsonrpc r = RPC_VERSION /\
  ((is_Some (Result r) /\ Error_ r = None) \/ (Result r = None /\ is_Some (Error_ r))).

(** The response [handleSingleRequest] writes for a received message. *)
Definition single_response_of (m : ChanMsg) : response :=
  match m with
  | OnErrChan e => makeErrorResponse (err e) (code e) (Some None) (ce_reqId e)
  | OnRespChan d => makeSuccessResponse (Some (data d)) (cs_reqId d)
  end.

#[global] Instance Choice_eq_dec : EqDecision Choice.
Proof. solve_decision. Defined.

(** The message of the runtime when an unlocked mutex is unlocked. *)
Definition unlock_fault : string := "fatal error: sync: unlock of unlocked mutex".

(** The number of calls a batch schedules, which is the number of
    iterations of its fan-in loop. *)
Definition scheduled_count (s : jsonRpcImpl) (requests : list request) : nat :=
  length (snd (validate s requests)).

(** The codes of the responses built before any call is scheduled. *)
Definition validation_code (c : RpcErrorCode) : Prop :=
  c = INVALID_REQUEST \/ c = PARSE_ERROR \/ c = METHOD_NOT_FOUND.

(** A batch of two notifications, and a body the decoder takes for a
    batch. *)
Definition twoNotifications : list request := [echoNotification; echoNotification].

Definition batchBody : http_Request :=
  {| r_Body := inr (list_byte_of_string ("[" +:+ echoPayload +:+ "]")); r_Context := bg |}.






(** A handler whose result [encoding/json] refuses, the float64 +Inf,
    its service and registry, and a request for it. *)
Definition Limit : GoMethod :=
  {| gm_name := "Limit"; gm_params := [TContext];
     gm_results := [TFloat64; TError; TPtr TRpcErrorCode];
     gm_variadic := false;
     gm_run := fun _ =>
       Ok [VConcrete (DFloat64 9218868437227405312); VIface TError None;
           VConcrete (DCodePtr None)] |}.

Definition calc : ServiceValue :=
  {| sv_typeName := "calc"; sv_type := TStruct "calc"; sv_methods := [Limit] |}.

Definition calcSvc : service :=
  {| methods := collect_methods calc; name := "Calc" |}.

Definition calcRpc : jsonRpcImpl :=
  fst (RegisterWithName NewJsonRpc calc "Calc").

Definition limitRequest : request :=
  {| Id := Some "9"; Method := "Calc.Limit"; Params := []; Jsonrpc := "2.0" |}.

(** A variadic handler,
    [func (counter) Count(ctx context.Context, words ...string) (int, error, *RpcErrorCode)],
    which returns the number of words it was given. *)
Definition Count : GoMethod :=
  {| gm_name := "Count"; gm_params := [TContext; TSlice TString];
     gm_results := [TInt; TError; TPtr TRpcErrorCode];
     gm_variadic := true;
     gm_run := fun params =>
       Ok [VConcrete (DInt (Z.of_nat (length params - 1))); VIface TError None;
           VConcrete (DCodePtr None)] |}.

Definition countSvc : service :=
  {| methods := {[ "Count" := Value_Method Count ]}; name := "Counter" |}.

(** A request for the handler that panics. *)
Definition boomRequest : request :=
  {| Id := Some "7"; Method := "Arith.Boom"; Params := []; Jsonrpc := "2.0" |}.

(** * Properties *)

(** ** Calling convention *)

Lemma isValidMethod_spec (m : reflect_Method) :
  isValidMethod m = true <->
  PkgPath m = "" /\ NumIn (Type_ m) <> 0%nat /\ NumOut (Type_ m) = 3%nat.
Proof.
  unfold isValidMethod, IsExported.
  case_bool_decide as Hpkg; simpl.
  - destruct (Nat.eqb_spec (NumIn (Type_ m)) 0) as [Hin | Hin];
      destruct (Nat.eqb_spec (NumOut (Type_ m)) 3) as [Hout | Hout]; simpl;
      intuition congruence.
  - intuition congruence.
Qed.

(** A method listed by [reflect] for a registered value is exported and
    has the receiver among its inputs, so only the output count is left
    to decide. *)
Lemma isValidMethod_Type_Method (srv : ServiceValue) (gm : GoMethod) :
  isValidMethod (Type_Method srv gm) = (length (gm_results gm) =? 3)%nat.
Proof.
  unfold isValidMethod, IsExported, Type_Method, NumIn, NumOut; simpl.
  destruct (length (gm_results gm) =? 3)%nat; reflexivity.
Qed.

(** C4 (the code departs from the rule): [NoContext] has no context
    parameter at all, so the rule of the spec and of the README rejects
    it, and [isValidMethod] accepts it because only the number of inputs,
    receiver included, and of outputs is looked at. *)
Theorem isValidMethod_accepts_without_context :
  isValidMethod NoContext_method = true /\
  spec_callingConvention NoContext_method = false /\
  (TContext ∉ ins (Type_ NoContext_method)) /\
  collect_methods {| sv_typeName := "testType"; sv_type := TStruct "testType";
                     sv_methods := [NoContext] |} !! "NoContext"
    = Some (Value_Method NoContext).
Proof.
  repeat split; try reflexivity.
  simpl. intros H. apply list_elem_of_In in H. simpl in H.
  destruct H as [H | []]. discriminate.
Qed.

(** ** Registration *)

Lemma size_insert_nonzero (m : gmap string service) (k : string) (v : service) :
  (size (<[k := v]> m) =? 0)%nat = false.
Proof.
  apply Nat.eqb_neq. apply map_size_non_empty_iff, insert_non_empty.
Qed.

(** What [register] decides on: it fails exactly when the value has no
    method at all, and otherwise stores the service under its name. *)
Lemma register_fails_iff (rpc : jsonRpcImpl) (srv : ServiceValue) (nm : option string) :
  (exists e, snd (register rpc srv nm) = Some e) <-> sv_methods srv = [].
Proof.
  unfold register, Value_NumMethod.
  destruct (sv_methods srv) as [| gm gms] eqn:Hm; simpl.
  - split; eauto.
  - rewrite size_insert_nonzero. simpl.
    split; [intros [e He]; discriminate | discriminate].
Qed.

Lemma register_stores (rpc : jsonRpcImpl) (srv : ServiceValue) (nm : option string) :
  sv_methods srv <> [] ->
  services (fst (register rpc srv nm))
    !! (match nm with None => sv_typeName srv | Some n => n end)
  = Some {| methods := collect_methods srv;
            name := match nm with None => sv_typeName srv | Some n => n end |}.
Proof.
  intros Hne. unfold register, Value_NumMethod.
  destruct (sv_methods srv) as [| gm gms] eqn:Hm; [congruence |].
  simpl. rewrite size_insert_nonzero. simpl. apply lookup_insert_eq.
Qed.

Lemma collect_methods_invalidOnly : collect_methods invalidOnly = ∅.
Proof. reflexivity. Qed.

(** C3 (the code departs from the rule): every method of [invalidOnly]
    fails [isValidMethod], yet [register] reports no error and stores a
    service with an empty method table; the second test of [register]
    looks at the size of the registry after the insertion, which is
    never zero. *)
Theorem register_accepts_service_without_valid_method :
  forallb (fun gm => negb (isValidMethod (Type_Method invalidOnly gm)))
          (sv_methods invalidOnly) = true /\
  snd (Register NewJsonRpc invalidOnly) = None /\
  services (fst (Register NewJsonRpc invalidOnly)) !! "testType"
  = Some {| methods := ∅; name := "testType" |} /\
  snd (RegisterWithName NewJsonRpc invalidOnly "T") = None /\
  snd (Register NewJsonRpc noMethods) = Some no_method_error.
Proof.
  repeat split; reflexivity.
Qed.

(** ** Method paths *)

Lemma strings_Split_nonempty (s : string) (sep : ascii) :
  exists h t, strings_Split s sep = h :: t.
Proof.
  induction s as [| c r IH]; simpl; [eauto |].
  destruct (decide (c = sep)); [eauto |].
  destruct IH as (h & t & ->). eauto.
Qed.

(** With a separator in the string, [strings.Split] returns at least two
    pieces, so [n[1]] is in range. *)
Lemma strings_Split_Contains (s : string) (sep : ascii) :
  strings_Contains s sep = true ->
  exists n0 n1 rest, strings_Split s sep = n0 :: n1 :: rest.
Proof.
  induction s as [| c r IH]; simpl; [discriminate |].
  destruct (decide (c = sep)) as [-> | Hne]; intros H.
  - destruct (strings_Split_nonempty r sep) as (h & t & ->). eauto.
  - destruct (IH H) as (n0 & n1 & rest & ->). eauto.
Qed.

Lemma strings_Split_no_separator (s : string) (sep : ascii) :
  strings_Contains s sep = false -> strings_Split s sep = [s].
Proof.
  induction s as [| c r IH]; simpl; [reflexivity |].
  destruct (decide (c = sep)); [discriminate |].
  intros H. rewrite (IH H). reflexivity.
Qed.

Lemma sanitizeMethodPath_rejects (method : string) :
  strings_Contains method dot = false ->
  sanitizeMethodPath method = inl (errors_New "Invalid method name").
Proof. intros H. unfold sanitizeMethodPath. rewrite H. reflexivity. Qed.

Lemma sanitizeMethodPath_accepts (method : string) :
  strings_Contains method dot = true ->
  exists n0 n1 rest,
    strings_Split method dot = n0 :: n1 :: rest /\
    sanitizeMethodPath method = inr (n0, n1).
Proof.
  intros H. unfold sanitizeMethodPath. rewrite H. simpl.
  destruct (strings_Split_Contains _ _ H) as (n0 & n1 & rest & Hs).
  rewrite Hs. eauto 6.
Qed.

(** C5 (as the code has it): a method string is accepted exactly when it
    contains a separator, whatever surrounds it; the service part is the
    first piece and the method part the second.  A request with the right
    version whose method string has no separator gets the PARSE_ERROR
    response "Invalid method name", written for a single request and
    appended to the collection for a batch member. *)
Theorem sanitizeMethodPath_accepts_iff_separator
    (s : jsonRpcImpl) (ctx : Context) (ch : Choice) (w : ResponseWriter)
    (rq : request) (responses : list response)
    (validServices : list batchServiceRequestType) :
  ((exists p, sanitizeMethodPath (Method rq) = inr p)
   <-> strings_Contains (Method rq) dot = true) /\
  (forall sn mn, sanitizeMethodPath (Method rq) = inr (sn, mn) ->
     exists rest, strings_Split (Method rq) dot = sn :: mn :: rest) /\
  (Jsonrpc rq = RPC_VERSION ->
   strings_Contains (Method rq) dot = false ->
   handleSingleRequest s ctx ch w rq
   = Returns (writeResponse w
                (makeErrorResponse (errors_New "Invalid method name")
                   PARSE_ERROR (Some None) (Id rq))
                (Id rq)) /\
   validate_step s (responses, validServices) rq
   = (responses ++ [makeErrorResponse (errors_New "Invalid method name")
                      PARSE_ERROR None (Id rq)],
      validServices)).
Proof.
  split; [| split].
  - split.
    + intros [p Hp].
      destruct (strings_Contains (Method rq) dot) eqn:Hc; [reflexivity |].
      rewrite (sanitizeMethodPath_rejects _ Hc) in Hp. discriminate.
    + intros Hc. destruct (sanitizeMethodPath_accepts _ Hc) as (n0 & n1 & rest & _ & ->).
      eauto.
  - intros sn mn Hp.
    destruct (strings_Contains (Method rq) dot) eqn:Hc.
    + destruct (sanitizeMethodPath_accepts _ Hc) as (n0 & n1 & rest & Hs & Hp').
      rewrite Hp' in Hp. injection Hp as <- <-. eauto.
    + rewrite (sanitizeMethodPath_rejects _ Hc) in Hp. discriminate.
  - intros Hv Hc. unfold handleSingleRequest, validate_step.
    rewrite (sanitizeMethodPath_rejects _ Hc), Hv. simpl. split; reflexivity.
Qed.

Lemma sanitizeMethodPath_accepts_iff_separator_witness :
  handleSingleRequest testRpc bg (Recv 0) new_writer noSeparator
  = Returns {| w_status := Some StatusOK;
               w_header := {[ "Content-Type" := "application/json" ]};
               w_body := [DocResponse
                            {| res_Jsonrpc := "2.0"; res_Id := Some "1"; Result := None;
                               Error_ := Some {| Code := PARSE_ERROR; Data := Some None;
                                                 Message := "Invalid method name" |} |}] |}.
Proof.
  pose proof (sanitizeMethodPath_accepts_iff_separator
                testRpc bg (Recv 0) new_writer noSeparator [] []) as (_ & _ & H).
  destruct (H eq_refl eq_refl) as [-> _]. reflexivity.
Defined.

(** C5 (as stated, refuted): "a.b.c" has two separators and ".Add" has an
    empty service part, and both are accepted; the request for "a.b.c" is
    then answered with METHOD_NOT_FOUND, not PARSE_ERROR. *)
Lemma sanitizeMethodPath_accepts_two_separators :
  sanitizeMethodPath "a.b.c" = inr ("a", "b") /\
  spec_validPath "a.b.c" = false /\
  sanitizeMethodPath ".Add" = inr ("", "Add") /\
  spec_validPath ".Add" = false /\
  handleSingleRequest NewJsonRpc bg (Recv 0) new_writer
    {| Id := Some "1"; Method := "a.b.c"; Params := []; Jsonrpc := "2.0" |}
  = Returns (writeResponse new_writer
               (makeErrorResponse (errors_New "Service a is not registered")
                  METHOD_NOT_FOUND (Some None) (Some "1"))
               (Some "1")).
Proof. repeat split; reflexivity. Qed.

(** ** The invoker *)

Ltac unfold_go :=
  unfold mbind, Go_bind, mret, Go_ret, lift, send in *.

(** While the channels are open, the body after the [defer] either
    panics before sending anything or sends one message and returns. *)
Lemma call_body_cases (method : MethodValue) (params : list Value)
    (id : option string) (tr : list ChanMsg) :
  (exists v, call_body method params id ChanOpen tr = (tr, Panic v)) \/
  (exists m, call_body method params id ChanOpen tr = (tr ++ [m], Ok tt) /\
             msg_id m = id).
Proof.
  unfold call_body. unfold_go.
  destruct (Call method params) as [resp | v]; [| eauto].
  destruct (index resp 1) as [r1 | v]; [| eauto].
  destruct (Interface r1) as [[d1 |] | v]; [| | eauto].
  - destruct (index resp 2) as [r2 | v]; [| eauto].
    destruct (Interface r2) as [[d2 |] | v]; [| | eauto].
    + destruct (assert_CodePtr (Some d2)) as [p | v]; [| eauto].
      destruct (deref p) as [c | v]; [| eauto].
      destruct (assert_error (Some d1)) as [e | v]; [| eauto].
      right. eexists. split; reflexivity.
    + destruct (assert_error (Some d1)) as [e | v]; [| eauto].
      right. eexists. split; reflexivity.
  - destruct (index resp 0) as [r0 | v]; [| eauto].
    destruct (Interface r0) as [d | v]; [| eauto].
    right. eexists. split; reflexivity.
Qed.

(** On closed channels the body always panics, at the latest in its
    send, and nothing is delivered. *)
Lemma call_body_closed (method : MethodValue) (params : list Value)
    (id : option string) (tr : list ChanMsg) :
  exists v, call_body method params id ChanClosed tr = (tr, Panic v).
Proof.
  unfold call_body. unfold_go.
  destruct (Call method params) as [resp | v]; [| eauto].
  destruct (index resp 1) as [r1 | v]; [| eauto].
  destruct (Interface r1) as [[d1 |] | v]; [| | eauto].
  - destruct (index resp 2) as [r2 | v]; [| eauto].
    destruct (Interface r2) as [[d2 |] | v]; [| | eauto].
    + destruct (assert_CodePtr (Some d2)) as [p | v]; [| eauto].
      destruct (deref p) as [c | v]; [| eauto].
      destruct (assert_error (Some d1)) as [e | v]; eauto.
    + destruct (assert_error (Some d1)) as [e | v]; eauto.
  - destruct (index resp 0) as [r0 | v]; [| eauto].
    destruct (Interface r0) as [d | v]; eauto.
Qed.

(** While the channels are open [call] returns normally, having sent
    exactly one message, which carries the request id. *)
Lemma call_sends_one (s : service) (ctx : Context) (methodName : string)
    (args : list any) (id : option string) (tr : list ChanMsg) :
  exists m, call s ctx methodName args id ChanOpen tr = (tr ++ [m], Ok tt) /\
            msg_id m = id.
Proof.
  unfold call. destruct (methods s !! methodName) as [method |].
  - unfold defer_recover.
    destruct (call_body_cases method (ValueOf (Some (DContext ctx)) :: map ValueOf args)
                id tr) as [[v ->] | (m & -> & Hm)].
    + eexists. split; reflexivity.
    + eauto.
  - eexists. split; reflexivity.
Qed.

(** On closed channels [call] delivers nothing and ends in a panic that
    no [recover] is left to catch: without the method the one send is
    not under the [defer]; with it, the deferred function recovers the
    panic of the body and then panics in its own send. *)
Lemma call_closed (s : service) (ctx : Context) (methodName : string)
    (args : list any) (id : option string) (tr : list ChanMsg) :
  call s ctx methodName args id ChanClosed tr = (tr, Panic "send on closed channel").
Proof.
  unfold call. destruct (methods s !! methodName) as [method |]; [| reflexivity].
  unfold defer_recover.
  destruct (call_body_closed method (ValueOf (Some (DContext ctx)) :: map ValueOf args)
              id tr) as [v ->].
  reflexivity.
Qed.

Lemma abandoned_panics (s : service) (ctx : Context) (methodName : string)
    (args : list any) (id : option string) :
  abandoned s ctx methodName args id = Panic "send on closed channel".
Proof. unfold abandoned. rewrite call_closed. reflexivity. Qed.

Lemma outcome_one (s : service) (ctx : Context) (methodName : string)
    (args : list any) (id : option string) :
  exists m, outcome s ctx methodName args id = [m] /\ msg_id m = id.
Proof.
  unfold outcome.
  destruct (call_sends_one s ctx methodName args id []) as (m & -> & Hm). eauto.
Qed.

(** The outcome of a call, from what [Value.Call] gives. *)
Lemma outcome_of_panic (s : service) (ctx : Context) (methodName : string)
    (args : list any) (id : option string) (method : MethodValue) (v : string) :
  methods s !! methodName = Some method ->
  Call method (call_params ctx args) = Panic v ->
  outcome s ctx methodName args id
  = [OnErrChan {| err := panic_error v; code := INTERNAL_ERROR; ce_reqId := id |}].
Proof.
  intros Hm Hc. unfold outcome, call. rewrite Hm. unfold defer_recover, call_body.
  fold (call_params ctx args). unfold_go. rewrite Hc. reflexivity.
Qed.

Lemma outcome_of_success (s : service) (ctx : Context) (methodName : string)
    (args : list any) (id : option string) (method : MethodValue)
    (r : Value) (rest : list Value) (d : any) :
  methods s !! methodName = Some method ->
  Call method (call_params ctx args) = Ok (r :: VIface TError None :: rest) ->
  Interface r = Ok d ->
  outcome s ctx methodName args id = [OnRespChan {| data := d; cs_reqId := id |}].
Proof.
  intros Hm Hc Hr. unfold outcome, call. rewrite Hm. unfold defer_recover, call_body.
  fold (call_params ctx args). unfold_go. rewrite Hc. cbn. rewrite Hr. reflexivity.
Qed.

Lemma outcome_of_error (s : service) (ctx : Context) (methodName : string)
    (args : list any) (id : option string) (method : MethodValue)
    (r : Value) (er : error) (c : RpcErrorCode) (rest : list Value) :
  methods s !! methodName = Some method ->
  Call method (call_params ctx args)
  = Ok (r :: VIface TError (Some (DError er)) :: VConcrete (DCodePtr (Some c)) :: rest) ->
  outcome s ctx methodName args id
  = [OnErrChan {| err := er; code := c; ce_reqId := id |}].
Proof.
  intros Hm Hc. unfold outcome, call. rewrite Hm. unfold defer_recover, call_body.
  fold (call_params ctx args). unfold_go. rewrite Hc. reflexivity.
Qed.

(** C1 (the code departs from the rule): an invocation whose
    coordinator has left its [select] through [ctx.Done()] finds both
    channels closed.  Whatever the service, the method and the handler,
    [call] then delivers no outcome at all and ends in the panic "send
    on closed channel"; for the cancelled single request for
    [Arith.Echo] the coordinator writes the "Request canceled" reply,
    closes the channels, and the goroutine panics.
    On open channels, a handler with the signature the README calls
    valid, whose third output is an [RpcErrorCode] and not a pointer to
    one, has the code it supplied replaced by INTERNAL_ERROR. *)
Theorem call_outcome_lost_on_closed_channels :
  (forall s ctx methodName args id tr,
     call s ctx methodName args id ChanClosed tr
     = (tr, Panic "send on closed channel")) /\
  call arithSvc bg "Echo" [Some (DString "hi")] (Some "1") ChanClosed []
  = ([], Panic "send on closed channel") /\
  handleSingleRequest testRpc bg CtxDone new_writer echoRequest
  = ReturnsThenPanic
      {| w_status := Some StatusOK;
         w_header := {[ "Content-Type" := "application/json" ]};
         w_body := [DocResponse
                      {| res_Jsonrpc := "2.0"; res_Id := Some "1"; Result := None;
                         Error_ := Some {| Code := INTERNAL_ERROR; Data := Some None;
                                           Message := "Request canceled" |} |}] |}
      "send on closed channel" /\
  outcome userSvc bg "UpdateFirstName" [Some (DInt 7); Some (DString "Ann")] (Some "5")
  = [OnErrChan {| err := errors_New
                    "Internal error: Panic interface conversion: interface {} is jsonrpc2.RpcErrorCode, not *jsonrpc2.RpcErrorCode";
                  code := INTERNAL_ERROR; ce_reqId := Some "5" |}].
Proof.
  split; [exact call_closed |]. repeat split; reflexivity.
Qed.

(** C7 (the code departs from the rule): the deferred function recovers
    every panic of the body, but it reports it with a send of its own.
    When the coordinator has closed the channels that send panics too,
    outside any [recover]: for every handler, whether it returns or
    panics, the invocation ends in the panic "send on closed channel".
    So the handler panic "boom" of a cancelled single request is
    recovered once and then ends the process. *)
Theorem call_panic_escapes_on_closed_channels :
  (forall (method : MethodValue) ctx args id tr,
     let s := {| methods := {[ "M" := method ]}; name := "S" |} in
     (exists v, call_body method (call_params ctx args) id ChanClosed tr
                = (tr, Panic v)) /\
     call s ctx "M" args id ChanClosed tr = (tr, Panic "send on closed channel")) /\
  call_body (Value_Method Boom) (call_params bg []) (Some "7") ChanClosed []
  = ([], Panic "boom") /\
  call arithSvc bg "Boom" [] (Some "7") ChanClosed []
  = ([], Panic "send on closed channel") /\
  handleSingleRequest testRpc bg CtxDone new_writer boomRequest
  = ReturnsThenPanic
      (writeErrorResponse new_writer (errors_New "Request canceled")
         INTERNAL_ERROR (Some "7") None)
      "send on closed channel".
Proof.
  split; [| repeat split; reflexivity].
  intros method ctx args id tr s. split.
  - apply call_body_closed.
  - apply call_closed.
Qed.

(** X19: while the channels are open, a registered handler invoked
    through [call] yields exactly one message, on one of the two
    channels, and [call] returns.  When the handler returns [(r, e, c)]
    with [e] an [error] and [c] a [*RpcErrorCode]: a non-nil [e] gives a
    message on [errChan] with the code [*c], or INTERNAL_ERROR when [c]
    is nil; a nil [e] gives a message on [respChan] with the result
    [r]. *)
Theorem call_yields_one_outcome
    (s : service) (ctx : Context) (methodName : string) (args : list any)
    (id : option string) (method : MethodValue) :
  methods s !! methodName = Some method ->
  (exists m, call s ctx methodName args id ChanOpen [] = ([m], Ok tt)) /\
  (forall (r : Value) (e : option error) (c : option RpcErrorCode) (d : any),
     Call method (call_params ctx args)
     = Ok [r; VIface TError (DError <$> e); VConcrete (DCodePtr c)] ->
     Interface r = Ok d ->
     match e with
     | Some er =>
         exists er',
           outcome s ctx methodName args id
           = [OnErrChan {| err := er'; code := default INTERNAL_ERROR c; ce_reqId := id |}]
           /\ (forall cd, c = Some cd -> er' = er)
     | None =>
         outcome s ctx methodName args id = [OnRespChan {| data := d; cs_reqId := id |}]
     end).
Proof.
  intros Hm. split.
  - destruct (call_sends_one s ctx methodName args id []) as (m & -> & _). eauto.
  - intros r e c d Hcall Hr. unfold outcome, call. rewrite Hm.
    unfold defer_recover, call_body, call_params in *. unfold_go.
    rewrite Hcall. simpl.
    destruct e as [er |]; simpl.
    + destruct c as [cd |]; simpl.
      * exists er. split; [reflexivity | auto].
      * eexists. split; [reflexivity | discriminate].
    + rewrite Hr. reflexivity.
Qed.

Lemma call_yields_one_outcome_witness :
  outcome arithSvc bg "ErrorMethod" [] (Some "1")
  = [OnErrChan {| err := errors_New "Some error here"; code := INVALID_PARAMS;
                  ce_reqId := Some "1" |}] /\
  outcome arithSvc bg "Fail" [] (Some "2")
  = [OnErrChan {| err := panic_error
                           "runtime error: invalid memory address or nil pointer dereference";
                  code := INTERNAL_ERROR; ce_reqId := Some "2" |}] /\
  outcome arithSvc bg "Echo" [Some (DString "hi")] None
  = [OnRespChan {| data := Some (DString "hi"); cs_reqId := None |}].
Proof.
  split; [| split].
  - destruct (call_yields_one_outcome arithSvc bg "ErrorMethod" [] (Some "1")
                (Value_Method ErrorMethod) eq_refl) as [_ H].
    destruct (H (VConcrete (DNilPtr TInt)) (Some (errors_New "Some error here"))
                (Some INVALID_PARAMS) (Some (DNilPtr TInt)) eq_refl eq_refl)
      as (er' & -> & Her).
    rewrite (Her INVALID_PARAMS eq_refl). reflexivity.
  - reflexivity.
  - destruct (call_yields_one_outcome arithSvc bg "Echo" [Some (DString "hi")] None
                (Value_Method Echo) eq_refl) as [_ H].
    exact (H (VConcrete (DString "hi")) None None (Some (DString "hi")) eq_refl eq_refl).
Defined.

(** X20: while the channels are open, whatever panics in the body of
    [call] after the [defer] -- [Value.Call] refusing the arguments, the
    handler itself, an index, a type assertion or a nil dereference
    while the results are read -- is recovered: [call] returns normally
    and has sent one message, on [errChan], with the code
    INTERNAL_ERROR and the panic's text in its message. *)
Theorem call_recovers_panic
    (s : service) (ctx : Context) (methodName : string) (args : list any)
    (id : option string) (method : MethodValue) (tr : list ChanMsg) :
  methods s !! methodName = Some method ->
  snd (call s ctx methodName args id ChanOpen tr) = Ok tt /\
  (forall v, Call method (call_params ctx args) = Panic v ->
     call_body method (call_params ctx args) id ChanOpen tr = (tr, Panic v)) /\
  (forall v tr', call_body method (call_params ctx args) id ChanOpen tr
                 = (tr', Panic v) ->
     call s ctx methodName args id ChanOpen tr
     = (tr ++ [OnErrChan {| err := errors_New ("Internal error: Panic " +:+ v);
                            code := INTERNAL_ERROR;
                            ce_reqId := id |}],
        Ok tt)).
Proof.
  intros Hm. split; [| split].
  - destruct (call_sends_one s ctx methodName args id tr) as (m & -> & _). reflexivity.
  - intros v Hv. unfold call_body. unfold_go. rewrite Hv. reflexivity.
  - intros v tr' Hb. unfold call. rewrite Hm. unfold defer_recover.
    fold (call_params ctx args). rewrite Hb.
    destruct (call_body_cases method (call_params ctx args) id tr)
      as [[v' Hv'] | (m & Hm' & _)]; rewrite Hb in *; [| discriminate].
    injection Hv' as -> _. reflexivity.
Qed.

Lemma call_recovers_panic_witness :
  call arithSvc bg "Boom" [] (Some "7") ChanOpen []
  = ([OnErrChan {| err := errors_New "Internal error: Panic boom";
                   code := INTERNAL_ERROR; ce_reqId := Some "7" |}], Ok tt) /\
  call arithSvc bg "Echo" [Some (DInt 3)] (Some "8") ChanOpen []
  = ([OnErrChan {| err := errors_New
                     "Internal error: Panic reflect: Call using int as type string";
                   code := INTERNAL_ERROR; ce_reqId := Some "8" |}], Ok tt) /\
  call arithSvc bg "Fail" [] (Some "9") ChanOpen []
  = ([OnErrChan {| err := errors_New
                     "Internal error: Panic runtime error: invalid memory address or nil pointer dereference";
                   code := INTERNAL_ERROR; ce_reqId := Some "9" |}], Ok tt).
Proof.
  split; [| split].
  - destruct (call_recovers_panic arithSvc bg "Boom" [] (Some "7")
                (Value_Method Boom) [] eq_refl) as (_ & Hcall & Hrec).
    exact (Hrec "boom" [] (Hcall "boom" eq_refl)).
  - destruct (call_recovers_panic arithSvc bg "Echo" [Some (DInt 3)] (Some "8")
                (Value_Method Echo) [] eq_refl) as (_ & Hcall & Hrec).
    exact (Hrec _ [] (Hcall "reflect: Call using int as type string" eq_refl)).
  - destruct (call_recovers_panic arithSvc bg "Fail" [] (Some "9")
                (Value_Method Fail) [] eq_refl) as (_ & _ & Hrec).
    exact (Hrec "runtime error: invalid memory address or nil pointer dereference"
             [] eq_refl).
Defined.

(** ** Unknown services and methods *)





(** ** Decoding failures *)

Lemma readRequest_error (dec : json_Decoder) (r : http_Request) (body : list Byte.byte) :
  r_Body r = inr body ->
  Unmarshal_request dec body = None ->
  Unmarshal_batch dec body = None ->
  readRequest dec r = (None, [], Some (errors_New "Unable to decode request")).
Proof. intros Hb H1 H2. unfold readRequest. rewrite Hb, H1, H2. reflexivity. Qed.

(** C6 (the code departs from the rule): for a body that decodes neither
    as a request nor as a list of requests, [handle] builds the
    PARSE_ERROR response with a nil id and passes it to [writeResponse],
    which takes the nil id for a notification: the reply has status 204
    and no body at all. *)
Theorem handle_decode_failure_writes_no_body
    (dec : json_Decoder) (s : jsonRpcImpl) (sched : list Choice)
    (r : http_Request) (body : list Byte.byte) :
  r_Body r = inr body ->
  Unmarshal_request dec body = None ->
  Unmarshal_batch dec body = None ->
  handle dec s sched new_writer r
  = Returns (writeResponse new_writer
               (makeErrorResponse (errors_New "Unable to decode request")
                  PARSE_ERROR (Some None) None)
               None) /\
  handle dec s sched new_writer r
  = Returns {| w_status := Some StatusNoContent; w_header := ∅; w_body := [] |}.
Proof.
  intros Hb H1 H2. unfold handle.
  rewrite (readRequest_error dec r body Hb H1 H2). split; reflexivity.
Qed.

Lemma handle_decode_failure_writes_no_body_witness :
  handle tableDecoder testRpc [] new_writer garbage
  = Returns {| w_status := Some StatusNoContent; w_header := ∅; w_body := [] |}.
Proof.
  exact (proj2 (handle_decode_failure_writes_no_body tableDecoder testRpc [] garbage
                  (list_byte_of_string "{not json") eq_refl eq_refl eq_refl)).
Defined.

(** ** The fan-in loop and its mutex *)

Ltac unfold_run := unfold mbind, Run_bind, mret, Run_ret in *.

(** Receiving a message locks and unlocks once around the append. *)
Lemma select_step_Recv (k : nat) (m : ChanMsg) (rest pending : list ChanMsg)
    (responses : list response) :
  pick k pending = Some (m, rest) ->
  select_step (Recv k) pending responses Unlocked
  = Returns (rest, responses ++ [response_of m], Unlocked).
Proof.
  intros Hp. unfold select_step. rewrite Hp. destruct m; reflexivity.
Qed.

(** The cancellation branch never gets past its unlocks, whatever the
    state of the mutex. *)
Lemma select_step_CtxDone (pending : list ChanMsg) (responses : list response)
    (mu : Mutex) :
  select_step CtxDone pending responses mu
  = Fatal "fatal error: sync: unlock of unlocked mutex".
Proof. destruct mu; reflexivity. Qed.

(** C2 (the code departs from the rule): in the cancellation branch of
    the fan-in loop the first statement after building the error is
    [mu.Unlock()] on a mutex that this path never locked, and the append
    is followed by a second unlock; the runtime aborts with "unlock of
    unlocked mutex".  A batch with one scheduled call whose context is
    done first ends that way. *)
Theorem fan_in_cancellation_unlocks_unlocked_mutex :
  Unlock Unlocked = Fatal "fatal error: sync: unlock of unlocked mutex" /\
  (forall pending responses,
     select_step CtxDone pending responses Unlocked
     = Fatal "fatal error: sync: unlock of unlocked mutex") /\
  (forall n sched pending responses,
     fan_in (S n) (CtxDone :: sched) pending responses Unlocked
     = Fatal "fatal error: sync: unlock of unlocked mutex") /\
  handleBatchRequest testRpc bg [CtxDone] new_writer [echoRequest]
  = Fatal "fatal error: sync: unlock of unlocked mutex".
Proof.
  split; [reflexivity |]. split; [intros; apply select_step_CtxDone |].
  split; [| reflexivity].
  intros n sched pending responses. reflexivity.
Qed.

(** ** What a batch emits *)

Lemma foldl_keep_has_id (responses acc : list response) :
  foldl (fun acc resp => if has_id resp then acc ++ [resp] else acc) acc responses
  = acc ++ List.filter has_id responses.
Proof.
  revert acc. induction responses as [| r rs IH]; intros acc; simpl.
  - rewrite app_nil_r. reflexivity.
  - rewrite IH. destruct (has_id r); [| reflexivity].
    rewrite <- app_assoc. reflexivity.
Qed.

Lemma WriteHeader_body (c : Z) (w : ResponseWriter) :
  w_body (WriteHeader c w) = w_body w.
Proof. unfold WriteHeader. destruct (w_status w); reflexivity. Qed.

Lemma Write_body (d : Doc) (w : ResponseWriter) :
  w_body (Write d w) = w_body w ++ [d].
Proof. unfold Write. simpl. rewrite WriteHeader_body. reflexivity. Qed.

Lemma WriteHeader_idem (c c' : Z) (w : ResponseWriter) :
  WriteHeader c' (WriteHeader c w) = WriteHeader c w.
Proof. unfold WriteHeader. destruct (w_status w) eqn:E; simpl; [rewrite E |]; reflexivity. Qed.

(** What [writeBatchResponse] does with a collection: the entries with
    an id are encoded together, and the array is written when the
    encoder accepts every one of them; when it refuses one, the error is
    dropped and nothing is written after the status. *)
Lemma writeBatchResponse_filter (w : ResponseWriter) (responses : list response) :
  writeBatchResponse w responses
  = if forallb response_encodable (List.filter has_id responses)
    then Write (DocBatch (List.filter has_id responses)) (WriteHeader StatusOK w)
    else WriteHeader StatusOK w.
Proof.
  unfold writeBatchResponse. rewrite foldl_keep_has_id. simpl.
  destruct (forallb response_encodable (List.filter has_id responses)); simpl;
    [reflexivity | apply WriteHeader_idem].
Qed.

Lemma writeBatchResponse_body (w : ResponseWriter) (responses : list response) :
  w_body (writeBatchResponse w responses)
  = w_body w ++
    (if forallb response_encodable (List.filter has_id responses)
     then [DocBatch (List.filter has_id responses)] else []).
Proof.
  rewrite writeBatchResponse_filter.
  destruct (forallb response_encodable (List.filter has_id responses)).
  - rewrite Write_body, WriteHeader_body. reflexivity.
  - rewrite WriteHeader_body, app_nil_r. reflexivity.
Qed.







(** ** Batches without cancellation *)

Lemma pick_Permutation (k : nat) (pending rest : list ChanMsg) (m : ChanMsg) :
  pick k pending = Some (m, rest) -> pending ≡ₚ m :: rest.
Proof.
  unfold pick. destruct (pending !! k) as [m' |] eqn:Hk.
  - intros [= <- <-]. apply delete_Permutation. exact Hk.
  - destruct pending as [| m' rest']; [discriminate |].
    intros [= <- <-]. reflexivity.
Qed.

Lemma pick_is_Some (k : nat) (pending : list ChanMsg) :
  pending <> [] -> exists m rest, pick k pending = Some (m, rest).
Proof.
  intros Hne. unfold pick. destruct (pending !! k); [eauto |].
  destruct pending; [congruence | eauto].
Qed.

(** Without [ctx.Done()] the loop receives every pending message once,
    in the order of the schedule, and leaves the mutex unlocked. *)
Lemma fan_in_no_cancellation (n : nat) :
  forall (sched : list Choice) (pending : list ChanMsg) (responses : list response),
    CtxDone ∉ sched ->
    length pending = n ->
    exists picked,
      fan_in n sched pending responses Unlocked
      = Returns (responses ++ map response_of picked, Unlocked) /\
      picked ≡ₚ pending.
Proof.
  induction n as [| n IH]; intros sched pending responses Hs Hlen.
  - exists []. destruct pending; [| discriminate]. simpl.
    rewrite app_nil_r. split; reflexivity.
  - assert (Hhead : exists k, match sched with c :: _ => c | [] => Recv 0 end = Recv k).
    { destruct sched as [| [k |] sched']; eauto.
      exfalso. apply Hs. left. }
    destruct Hhead as [k Hk].
    assert (Htail : CtxDone ∉ tail sched).
    { destruct sched as [| c sched']; [exact Hs |].
      intros Hin. apply Hs. right. exact Hin. }
    destruct (pick_is_Some k pending) as (m & rest & Hp).
    { destruct pending; [discriminate | congruence]. }
    pose proof (pick_Permutation _ _ _ _ Hp) as Hperm.
    assert (Hrest : length rest = n).
    { apply Permutation_length in Hperm. simpl in Hperm. lia. }
    destruct (IH (tail sched) rest (responses ++ [response_of m]) Htail Hrest)
      as (picked & Hfan & Hpicked).
    exists (m :: picked). split.
    + cbn [fan_in]. rewrite Hk, (select_step_Recv _ _ _ _ _ Hp).
      unfold_run. rewrite Hfan. simpl. rewrite <- app_assoc. reflexivity.
    + rewrite Hperm, Hpicked. reflexivity.
Qed.

Lemma res_Id_response_of (m : ChanMsg) : res_Id (response_of m) = msg_id m.
Proof. destruct m; reflexivity. Qed.

(** One step of the first loop: the request gets its response at once,
    echoing its id, or is scheduled. *)
Lemma validate_step_cases (s : jsonRpcImpl) (responses : list response)
    (validServices : list batchServiceRequestType) (rq : request) :
  (exists r, validate_step s (responses, validServices) rq
             = (responses ++ [r], validServices) /\ res_Id r = Id rq) \/
  (exists sn mn svc,
     Jsonrpc rq = RPC_VERSION /\
     sanitizeMethodPath (Method rq) = inr (sn, mn) /\
     services s !! sn = Some svc /\
     validate_step s (responses, validServices) rq
     = (responses,
        validServices ++ [{| methodName := mn; req := rq; bs_service := svc |}])).
Proof.
  unfold validate_step. case_bool_decide as Hv; simpl.
  - destruct (sanitizeMethodPath (Method rq)) as [e | [sn mn]] eqn:Hp.
    + left. eexists. split; reflexivity.
    + destruct (services s !! sn) as [svc |] eqn:Hs.
      * right. exists sn, mn, svc. auto.
      * left. eexists. split; reflexivity.
  - left. eexists. split; reflexivity.
Qed.

Lemma validate_ids (s : jsonRpcImpl) (requests : list request) :
  forall responses validServices,
    map res_Id (fst (foldl (validate_step s) (responses, validServices) requests))
    ++ map scheduled_id (snd (foldl (validate_step s) (responses, validServices) requests))
    ≡ₚ (map res_Id responses ++ map scheduled_id validServices) ++ map Id requests.
Proof.
  induction requests as [| rq rqs IH]; intros responses validServices; cbn [foldl].
  - simpl. rewrite app_nil_r. reflexivity.
  - destruct (validate_step_cases s responses validServices rq)
      as [(r & -> & Hr) | (sn & mn & svc & _ & _ & _ & ->)]; rewrite IH.
    + rewrite map_app. simpl. rewrite Hr.
      rewrite <- !app_assoc. simpl.
      rewrite <- (Permutation_middle (map res_Id responses)).
      rewrite !app_assoc. apply Permutation_middle.
    + rewrite map_app. simpl. rewrite <- !app_assoc. reflexivity.
Qed.

Lemma validate_keeps_scheduled (s : jsonRpcImpl) (requests : list request) :
  forall responses validServices v,
    v ∈ validServices ->
    v ∈ snd (foldl (validate_step s) (responses, validServices) requests).
Proof.
  induction requests as [| rq rqs IH]; intros responses validServices v Hv; cbn [foldl].
  - exact Hv.
  - destruct (validate_step_cases s responses validServices rq)
      as [(r & -> & _) | (sn & mn & svc & _ & _ & _ & ->)]; apply IH.
    + exact Hv.
    + apply elem_of_app. left. exact Hv.
Qed.

(** A request that passes the three checks is scheduled, with or without
    an id. *)
Lemma validate_schedules (s : jsonRpcImpl) (requests : list request) :
  forall responses validServices rq sn mn svc,
    rq ∈ requests ->
    Jsonrpc rq = RPC_VERSION ->
    sanitizeMethodPath (Method rq) = inr (sn, mn) ->
    services s !! sn = Some svc ->
    {| methodName := mn; req := rq; bs_service := svc |}
    ∈ snd (foldl (validate_step s) (responses, validServices) requests).
Proof.
  induction requests as [| rq' rqs IH];
    intros responses validServices rq sn mn svc Hin Hv Hp Hs.
  - inversion Hin.
  - cbn [foldl]. apply elem_of_cons in Hin as [<- | Hin].
    + assert (Hstep : validate_step s (responses, validServices) rq
                      = (responses,
                         validServices
                         ++ [{| methodName := mn; req := rq; bs_service := svc |}])).
      { unfold validate_step. rewrite Hv, Hp, Hs. reflexivity. }
      rewrite Hstep. apply validate_keeps_scheduled. apply elem_of_app. right. left.
    + destruct (validate_step s (responses, validServices) rq') as [rs vs].
      eapply IH; eauto.
Qed.

Lemma fan_out_ids (ctx : Context) (validServices : list batchServiceRequestType) :
  map msg_id (fan_out ctx validServices) = map scheduled_id validServices /\
  length (fan_out ctx validServices) = length validServices.
Proof.
  unfold fan_out. induction validServices as [| v vs [IH1 IH2]]; [split; reflexivity |].
  simpl.
  destruct (outcome_one (bs_service v) ctx (methodName v) (Params (req v)) (Id (req v)))
    as (m & -> & Hm).
  simpl. rewrite IH1, IH2, Hm. split; reflexivity.
Qed.

Lemma fan_out_contains (ctx : Context) (validServices : list batchServiceRequestType)
    (v : batchServiceRequestType) (m : ChanMsg) :
  v ∈ validServices ->
  m ∈ outcome (bs_service v) ctx (methodName v) (Params (req v)) (Id (req v)) ->
  m ∈ fan_out ctx validServices.
Proof.
  intros Hv Hm. unfold fan_out. apply list_elem_of_In, in_flat_map.
  exists v. split; apply list_elem_of_In; assumption.
Qed.








(** ** The repository's tests, replayed *)

(** [TestIsValidMethod]: the first three methods of [testType] are
    rejected and the fifth accepted.  The fourth, which the test skips
    and its comment calls invalid, is accepted too. *)
Example TestIsValidMethod :
  map (fun gm => isValidMethod (Type_Method testType gm)) (sv_methods testType)
  = [false; false; false; true; true].
Proof. reflexivity. Qed.

(** [TestRegister] and [TestRegisterWithName]. *)
Example TestRegister :
  (exists svc, services (fst (Register NewJsonRpc arith)) !! "arith" = Some svc /\
               is_Some (methods svc !! "Echo")) /\
  (exists svc, services testRpc !! "Arith" = Some svc /\
               is_Some (methods svc !! "Echo")).
Proof. split; eexists; (split; [reflexivity | eexists; reflexivity]). Qed.

(** [TestHandleSingle] and [TestHandleSingleWrongVersion]. *)
Example TestHandleSingle :
  handleSingleRequest testRpc bg (Recv 0) new_writer echoRequest
  = Returns {| w_status := Some StatusOK;
               w_header := {[ "Content-Type" := "application/json" ]};
               w_body := [DocResponse
                            {| res_Jsonrpc := "2.0"; res_Id := Some "1";
                               Result := Some (Some (DString "hi"));
                               Error_ := None |}] |}.
Proof. reflexivity. Qed.

Example TestHandleSingleWrongVersion :
  handleSingleRequest testRpc bg (Recv 0) new_writer oldVersion
  = Returns {| w_status := Some StatusOK;
               w_header := {[ "Content-Type" := "application/json" ]};
               w_body := [DocResponse
                            {| res_Jsonrpc := "2.0"; res_Id := Some "3"; Result := None;
                               Error_ := Some {| Code := INVALID_REQUEST;
                                                 Data := Some None;
                                                 Message := "Invalid RPC version. jsonrpc must be 2.0" |} |}] |}.
Proof. reflexivity. Qed.

(** [TestHandleBatch]: two valid calls, two entries; the order is that
    of the schedule. *)
Example TestHandleBatch :
  handleBatchRequest testRpc bg [Recv 1; Recv 0] new_writer [echoRequest; echoRequest2]
  = Returns {| w_status := Some StatusOK; w_header := ∅;
               w_body := [DocBatch
                            [makeSuccessResponse (Some (Some (DString "ho"))) (Some "2");
                             makeSuccessResponse (Some (Some (DString "hi"))) (Some "1")]] |}.
Proof. reflexivity. Qed.

(** The whole entry point on the one payload the table decoder knows. *)
Example ServeHTTP_echo :
  ServeHTTP tableDecoder testRpc [] new_writer
    {| r_Body := inr (list_byte_of_string echoPayload); r_Context := bg |}
  = handleSingleRequest testRpc bg (Recv 0) new_writer echoRequest.
Proof. reflexivity. Qed.

(** The code is read through the assertion [errCode.( *RpcErrorCode)]:
    with the README's signature, whose third output is not a pointer,
    the assertion panics and the handler's code is replaced. *)
Example call_with_plain_code :
  outcome userSvc bg "UpdateFirstName" [Some (DInt 7); Some (DString "Ann")] (Some "5")
  = [OnErrChan {| err := panic_error
                    "interface conversion: interface {} is jsonrpc2.RpcErrorCode, not *jsonrpc2.RpcErrorCode";
                  code := INTERNAL_ERROR; ce_reqId := Some "5" |}].
Proof. reflexivity. Qed.

(** * Further properties of the code *)

(** ** The registry as a map *)

Lemma register_on_methods (rpc : jsonRpcImpl) (srv : ServiceValue) (nm : option string) :
  sv_methods srv <> [] ->
  register rpc srv nm
  = ({| services := <[service_key srv nm :=
                        {| methods := collect_methods srv;
                           name := service_key srv nm |}]> (services rpc) |},
     None).
Proof.
  intros Hv. unfold register, Value_NumMethod.
  destruct (sv_methods srv) as [| gm gms] eqn:Hm; [congruence |].
  cbn [length Nat.eqb]. fold (service_key srv nm). cbn [services].
  rewrite size_insert_nonzero. reflexivity.
Qed.

Lemma register_on_no_method (rpc : jsonRpcImpl) (srv : ServiceValue) (nm : option string) :
  sv_methods srv = [] -> register rpc srv nm = (rpc, Some no_method_error).
Proof. intros Hv. unfold register, Value_NumMethod. rewrite Hv. reflexivity. Qed.

(** X1: [register] on a value with at least one exported method never
    fails; it binds the key to the new service and leaves every other
    key as it was, so registering again under the same name replaces the
    service: the last registration is the one that is kept.  On a value
    with no method the registry is returned unchanged. *)
Theorem register_insert_lookup
    (rpc : jsonRpcImpl) (srv srv2 : ServiceValue) (nm : option string) (k : string) :
  sv_methods srv <> [] ->
  sv_methods srv2 <> [] ->
  snd (register rpc srv nm) = None /\
  services (fst (register rpc srv nm)) !! k
  = (if decide (service_key srv nm = k)
     then Some {| methods := collect_methods srv; name := service_key srv nm |}
     else services rpc !! k) /\
  services (fst (register (fst (register rpc srv nm)) srv2 (Some (service_key srv nm))))
  = services (fst (register rpc srv2 (Some (service_key srv nm)))) /\
  (forall rpc0 srv0, sv_methods srv0 = [] ->
     register rpc0 srv0 nm = (rpc0, Some no_method_error)).
Proof.
  intros Hne Hne2.
  rewrite (register_on_methods rpc srv nm Hne). cbn [fst snd services].
  split; [reflexivity |]. split; [apply lookup_insert |].
  split; [| intros rpc0 srv0; apply register_on_no_method].
  rewrite !(register_on_methods _ srv2 _ Hne2). cbn [fst services service_key].
  apply insert_insert_eq.
Qed.

Lemma register_insert_lookup_witness :
  services (fst (register (fst (register NewJsonRpc arith (Some "Arith")))
                   arith2 (Some "Arith")))
  = services (fst (register NewJsonRpc arith2 (Some "Arith"))) /\
  services (fst (register NewJsonRpc arith (Some "Arith"))) !! "Other" = None.
Proof.
  assert (H1 : sv_methods arith <> []) by discriminate.
  assert (H2 : sv_methods arith2 <> []) by discriminate.
  destruct (register_insert_lookup NewJsonRpc arith arith2 (Some "Arith") "Other" H1 H2)
    as (_ & Hk & Htwice & _).
  split; [exact Htwice |]. rewrite Hk. reflexivity.
Defined.

(** The method table after the loop of [register], by induction on the
    method set. *)
Lemma collect_methods_lookup_Some (srv : ServiceValue) (l : list GoMethod) :
  forall (acc : gmap string MethodValue) (n : string) (mv : MethodValue),
    foldl (fun ms gm =>
             if isValidMethod (Type_Method srv gm)
             then <[gm_name gm := Value_Method gm]> ms
             else ms) acc l !! n = Some mv ->
    acc !! n = Some mv \/
    exists gm, gm ∈ l /\ gm_name gm = n /\ length (gm_results gm) = 3%nat /\
               mv = Value_Method gm.
Proof.
  induction l as [| gm l IH]; intros acc n mv H; cbn [foldl] in H; [left; exact H |].
  apply IH in H as [H | (gm' & Hin & Hn & Hr & Hmv)].
  - rewrite isValidMethod_Type_Method in H.
    destruct (Nat.eqb_spec (length (gm_results gm)) 3) as [H3 | H3].
    + rewrite lookup_insert in H. case_decide as Hk.
      * right. exists gm. injection H as <-. repeat split; auto. left.
      * left. exact H.
    + left. exact H.
  - right. exists gm'. repeat split; auto. right. exact Hin.
Qed.

Lemma collect_methods_lookup_is_Some (srv : ServiceValue) (l : list GoMethod) :
  forall (acc : gmap string MethodValue) (n : string),
    (is_Some (acc !! n) \/
     exists gm, gm ∈ l /\ gm_name gm = n /\ length (gm_results gm) = 3%nat) ->
    is_Some (foldl (fun ms gm =>
                      if isValidMethod (Type_Method srv gm)
                      then <[gm_name gm := Value_Method gm]> ms
                      else ms) acc l !! n).
Proof.
  induction l as [| gm l IH]; intros acc n H; cbn [foldl].
  - destruct H as [H | (gm & Hin & _)]; [exact H | inversion Hin].
  - apply IH. rewrite isValidMethod_Type_Method.
    destruct H as [H | (gm' & Hin & Hn & Hr)].
    + left. destruct (length (gm_results gm) =? 3)%nat; [| exact H].
      rewrite lookup_insert. case_decide; [eexists; reflexivity | exact H].
    + apply elem_of_cons in Hin as [-> | Hin].
      * left. rewrite Hr. cbn [Nat.eqb]. rewrite Hn, lookup_insert_eq.
        eexists; reflexivity.
      * right. exists gm'. auto.
Qed.

(** X2: of the methods [reflect] lists for the registered value, the
    table of the service holds exactly those with three outputs, under
    their own names and bound to the value's own method: a name is in the
    table if and only if some listed method has that name and three
    outputs, whatever its parameters are. *)
Theorem collect_methods_three_outputs (srv : ServiceValue) (n : string) :
  (is_Some (collect_methods srv !! n) <->
   exists gm, gm ∈ sv_methods srv /\ gm_name gm = n /\
              length (gm_results gm) = 3%nat) /\
  (forall mv, collect_methods srv !! n = Some mv ->
     exists gm, gm ∈ sv_methods srv /\ gm_name gm = n /\
                length (gm_results gm) = 3%nat /\ mv = Value_Method gm).
Proof.
  unfold collect_methods. split; [split |].
  - intros [mv H]. apply collect_methods_lookup_Some in H
      as [H | (gm & Hin & Hn & Hr & _)].
    + rewrite lookup_empty in H. discriminate.
    + eauto.
  - intros H. apply collect_methods_lookup_is_Some. right. exact H.
  - intros mv H. apply collect_methods_lookup_Some in H as [H | H]; [| exact H].
    rewrite lookup_empty in H. discriminate.
Qed.

(** X3: in every registry that [NewJsonRpc] and [register] can build,
    each service sits under its own name and each method of its table
    has exactly three outputs, the three that [call] reads. *)
Theorem registered_methods_have_three_outputs
    (rpc : jsonRpcImpl) (k mn : string) (svc : service) (mv : MethodValue) :
  registered rpc ->
  services rpc !! k = Some svc ->
  methods svc !! mn = Some mv ->
  name svc = k /\ NumOut (mtype mv) = 3%nat.
Proof.
  intros Hreg. revert k svc. induction Hreg as [| rpc srv nm Hr IH]; intros k svc Hs Hm.
  - unfold NewJsonRpc in Hs. cbn in Hs. rewrite lookup_empty in Hs. discriminate.
  - destruct (sv_methods srv) as [| gm0 gms] eqn:Hsrv.
    { rewrite (register_on_no_method rpc srv nm Hsrv) in Hs. eauto. }
    rewrite (register_on_methods rpc srv nm) in Hs by (rewrite Hsrv; discriminate).
    cbn [fst services] in Hs.
    rewrite lookup_insert in Hs. case_decide as Hk; [| eauto].
    injection Hs as <-. cbn [methods name] in *. split; [exact Hk |].
    unfold collect_methods in Hm.
    apply collect_methods_lookup_Some in Hm as [Hm | (gm & _ & _ & H3 & ->)].
    + rewrite lookup_empty in Hm. discriminate.
    + exact H3.
Qed.

Lemma registered_methods_have_three_outputs_witness :
  name arithSvc = "Arith" /\ NumOut (mtype (Value_Method Echo)) = 3%nat.
Proof.
  exact (registered_methods_have_three_outputs testRpc "Arith" "Echo" arithSvc
           (Value_Method Echo)
           (registered_step NewJsonRpc arith (Some "Arith") registered_new)
           eq_refl eq_refl).
Defined.

(** ** Method paths: what the two parts are *)

Lemma strings_Join_cons (x h : string) (t : list string) (sep : ascii) :
  strings_Join (x :: h :: t) sep = x +:+ String sep (strings_Join (h :: t) sep).
Proof. reflexivity. Qed.

Lemma strings_Join_Split (s : string) (sep : ascii) :
  strings_Join (strings_Split s sep) sep = s.
Proof.
  induction s as [| c r IH]; [reflexivity |].
  cbn [strings_Split]. destruct (strings_Split_nonempty r sep) as (h & t & Hs).
  rewrite Hs in *. destruct (decide (c = sep)) as [-> | Hne].
  - rewrite strings_Join_cons, IH. reflexivity.
  - destruct t as [| h' t'].
    + cbn in IH |- *. rewrite IH. reflexivity.
    + rewrite strings_Join_cons in IH |- *.
      change (String c (h +:+ String sep (strings_Join (h' :: t') sep)) = String c r).
      f_equal. exact IH.
Qed.

Lemma strings_Split_pieces (s : string) (sep : ascii) :
  Forall (fun piece => strings_Contains piece sep = false) (strings_Split s sep).
Proof.
  induction s as [| c r IH]; cbn [strings_Split].
  - repeat constructor.
  - destruct (decide (c = sep)) as [-> | Hne].
    + constructor; [reflexivity | exact IH].
    + destruct (strings_Split r sep) as [| h t].
      * constructor; [| constructor]. cbn [strings_Contains].
        destruct (decide (c = sep)); [contradiction | reflexivity].
      * inversion IH as [| ? ? Hh Ht]; subst. constructor; [| exact Ht].
        cbn [strings_Contains].
        destruct (decide (c = sep)); [contradiction | exact Hh].
Qed.

Lemma strings_Split_String (c : ascii) (r : string) (sep : ascii) :
  strings_Split (String c r) sep
  = if decide (c = sep) then EmptyString :: strings_Split r sep
    else match strings_Split r sep with
         | h :: t => String c h :: t
         | [] => [String c EmptyString]
         end.
Proof. reflexivity. Qed.

Lemma strings_Contains_String (c : ascii) (r : string) (sep : ascii) :
  strings_Contains (String c r) sep
  = if decide (c = sep) then true else strings_Contains r sep.
Proof. reflexivity. Qed.

Lemma strings_Split_prefix (sn r : string) (sep : ascii) :
  strings_Contains sn sep = false ->
  strings_Split (sn +:+ String sep r) sep = sn :: strings_Split r sep.
Proof.
  induction sn as [| c sn IH]; intros Hc.
  - change (EmptyString +:+ String sep r) with (String sep r).
    rewrite strings_Split_String, decide_True by reflexivity. reflexivity.
  - change (String c sn +:+ String sep r) with (String c (sn +:+ String sep r)).
    rewrite strings_Contains_String in Hc. rewrite strings_Split_String.
    destruct (decide (c = sep)) as [| Hne]; [discriminate |].
    rewrite (IH Hc). reflexivity.
Qed.

Lemma strings_Contains_append (sn r : string) (sep : ascii) :
  strings_Contains (sn +:+ String sep r) sep = true.
Proof.
  induction sn as [| c sn IH].
  - change (EmptyString +:+ String sep r) with (String sep r).
    rewrite strings_Contains_String, decide_True by reflexivity. reflexivity.
  - change (String c sn +:+ String sep r) with (String c (sn +:+ String sep r)).
    rewrite strings_Contains_String.
    destruct (decide (c = sep)); [reflexivity | exact IH].
Qed.

(** X4: a path written as a service name, a dot and a method name, none
    of the names containing a dot, is split back into exactly these two
    names. *)
Theorem sanitizeMethodPath_round_trip (sn mn : string) :
  strings_Contains sn dot = false ->
  strings_Contains mn dot = false ->
  sanitizeMethodPath (sn +:+ String dot mn) = inr (sn, mn).
Proof.
  intros Hs Hm. unfold sanitizeMethodPath.
  rewrite strings_Contains_append. cbn [negb].
  rewrite (strings_Split_prefix sn mn dot Hs), (strings_Split_no_separator mn dot Hm).
  reflexivity.
Qed.

Lemma sanitizeMethodPath_round_trip_witness :
  sanitizeMethodPath "Arith.Add" = inr ("Arith", "Add").
Proof.
  exact (sanitizeMethodPath_round_trip "Arith" "Add" eq_refl eq_refl).
Defined.

(** X5: the two parts of an accepted path never contain a dot, and the
    path is these two parts and whatever pieces follow, joined by dots.
    So a service stored under a name with a dot in it (which
    [RegisterWithName] allows) is never the one a request resolves to. *)
Theorem sanitizeMethodPath_parts (method sn mn : string) :
  sanitizeMethodPath method = inr (sn, mn) ->
  strings_Contains sn dot = false /\
  strings_Contains mn dot = false /\
  (exists rest, method = strings_Join (sn :: mn :: rest) dot) /\
  (forall key, strings_Contains key dot = true -> sn <> key).
Proof.
  intros Hp.
  destruct (strings_Contains method dot) eqn:Hc.
  2: { rewrite (sanitizeMethodPath_rejects _ Hc) in Hp. discriminate. }
  destruct (sanitizeMethodPath_accepts _ Hc) as (n0 & n1 & rest & Hs & Hp').
  rewrite Hp' in Hp. injection Hp as <- <-.
  pose proof (strings_Split_pieces method dot) as Hpieces.
  rewrite Hs in Hpieces.
  inversion Hpieces as [| ? ? H0 Hrest]; subst.
  inversion Hrest as [| ? ? H1 _]; subst.
  repeat split; try assumption.
  - exists rest. rewrite <- Hs. symmetry. apply strings_Join_Split.
  - intros key Hk ->. congruence.
Qed.

Lemma sanitizeMethodPath_parts_witness :
  exists rest, "a.b.c" = strings_Join ("a" :: "b" :: rest) dot.
Proof.
  destruct (sanitizeMethodPath_parts "a.b.c" "a" "b" eq_refl) as (_ & _ & H & _).
  exact H.
Defined.

(** ** The invoker: parameters and codes *)

Lemma check_zero_nil_argument (xs : list Value) :
  VInvalid ∈ xs -> check_zero xs = Panic "reflect: Call using zero Value argument".
Proof.
  induction xs as [| x xs IH]; intros Hin; [inversion Hin |].
  apply elem_of_cons in Hin as [<- | Hin]; [reflexivity |].
  destruct x; cbn [check_zero]; auto.
Qed.

(** X6: while the channels are open, [Value.Call] refuses a call whose
    [params] are fewer than the parameters the method declares after
    the context (for a variadic method, before its last one), or more
    than them when the method is not variadic, or contain a JSON null:
    the handler is not run and the outcome is one INTERNAL_ERROR naming
    the reflection fault (not INVALID_PARAMS). *)
Theorem call_with_wrong_arguments
    (s : service) (ctx : Context) (methodName : string) (args : list any)
    (id : option string) (method : MethodValue) :
  methods s !! methodName = Some method ->
  let variadic := IsVariadic (mtype method) in
  let fixed := if variadic then (NumIn (mtype method) - 1)%nat
               else NumIn (mtype method) in
  ((S (length args) < fixed)%nat \/
   (variadic = false /\ (fixed < S (length args))%nat) \/
   None ∈ args) ->
  exists v,
    outcome s ctx methodName args id
    = [OnErrChan {| err := errors_New ("Internal error: Panic " +:+ v);
                    code := INTERNAL_ERROR; ce_reqId := id |}] /\
    Call method (call_params ctx args) = Panic v /\
    v = (if (S (length args) <? fixed)%nat
         then "reflect: Call with too few input arguments"
         else if negb variadic && (fixed <? S (length args))%nat
              then "reflect: Call with too many input arguments"
              else "reflect: Call using zero Value argument").
Proof.
  intros Hm variadic fixed Hbad.
  assert (Hcall : Call method (call_params ctx args)
                  = Panic (if (S (length args) <? fixed)%nat
                           then "reflect: Call with too few input arguments"
                           else if negb variadic && (fixed <? S (length args))%nat
                                then "reflect: Call with too many input arguments"
                                else "reflect: Call using zero Value argument")).
  { unfold Call, call_params. cbn [length]. rewrite length_map.
    fold variadic. fold fixed.
    destruct (S (length args) <? fixed)%nat eqn:Hfew; [reflexivity |].
    destruct (negb variadic && (fixed <? S (length args))%nat) eqn:Hmany;
      [reflexivity |].
    destruct Hbad as [Hlen | [[Hv Hlen] | Hnil]].
    - apply Nat.ltb_ge in Hfew. lia.
    - rewrite Hv in Hmany. simpl in Hmany. apply Nat.ltb_ge in Hmany. lia.
    - rewrite check_zero_nil_argument; [reflexivity |].
      right. apply (list_elem_of_fmap_2 ValueOf) in Hnil. exact Hnil. }
  eexists. split; [| split; [exact Hcall | reflexivity]].
  exact (outcome_of_panic s ctx methodName args id method _ Hm Hcall).
Qed.

Lemma call_with_wrong_arguments_witness :
  outcome arithSvc bg "Echo" [] (Some "1")
  = [OnErrChan {| err := errors_New
                    "Internal error: Panic reflect: Call with too few input arguments";
                  code := INTERNAL_ERROR; ce_reqId := Some "1" |}] /\
  outcome arithSvc bg "Echo" [None] (Some "2")
  = [OnErrChan {| err := errors_New
                    "Internal error: Panic reflect: Call using zero Value argument";
                  code := INTERNAL_ERROR; ce_reqId := Some "2" |}] /\
  outcome countSvc bg "Count" [Some (DString "a"); None] (Some "3")
  = [OnErrChan {| err := errors_New
                    "Internal error: Panic reflect: Call using zero Value argument";
                  code := INTERNAL_ERROR; ce_reqId := Some "3" |}] /\
  outcome countSvc bg "Count" [Some (DString "a"); Some (DString "b")] (Some "4")
  = [OnRespChan {| data := Some (DInt 2); cs_reqId := Some "4" |}].
Proof.
  split; [| split; [| split]].
  - destruct (call_with_wrong_arguments arithSvc bg "Echo" [] (Some "1")
                (Value_Method Echo) eq_refl) as (v & -> & _ & ->).
    + left. vm_compute. lia.
    + reflexivity.
  - destruct (call_with_wrong_arguments arithSvc bg "Echo" [None] (Some "2")
                (Value_Method Echo) eq_refl) as (v & -> & _ & ->).
    + right. right. left.
    + reflexivity.
  - destruct (call_with_wrong_arguments countSvc bg "Count" [Some (DString "a"); None]
                (Some "3") (Value_Method Count) eq_refl) as (v & -> & _ & ->).
    + right. right. right. left.
    + reflexivity.
  - reflexivity.
Defined.

(** X7: the codes [call] can put on [errChan]: METHOD_NOT_FOUND exactly
    when the service has no such method, and otherwise INTERNAL_ERROR or
    the code the handler returned behind its third output.  No other
    code, INVALID_PARAMS included, comes from the invoker itself. *)
Theorem call_error_codes
    (s : service) (ctx : Context) (methodName : string) (args : list any)
    (id : option string) (e : callerError) :
  OnErrChan e ∈ outcome s ctx methodName args id ->
  (methods s !! methodName = None /\ code e = METHOD_NOT_FOUND) \/
  (exists method, methods s !! methodName = Some method /\
     (code e = INTERNAL_ERROR \/
      exists resp r2,
        Call method (call_params ctx args) = Ok resp /\
        resp !! 2%nat = Some r2 /\
        Interface r2 = Ok (Some (DCodePtr (Some (code e)))))).
Proof.
  unfold outcome, call. destruct (methods s !! methodName) as [method |] eqn:Hm.
  2: { intros Hin. apply list_elem_of_singleton in Hin. injection Hin as ->.
       left. split; reflexivity. }
  intros Hin. right. exists method. split; [reflexivity |].
  revert Hin. unfold defer_recover, call_body. fold (call_params ctx args). unfold_go.
  destruct (Call method (call_params ctx args)) as [resp | v] eqn:Hcall.
  2: { intros Hin. apply list_elem_of_singleton in Hin. injection Hin as ->. left. reflexivity. }
  unfold index.
  destruct (resp !! 1%nat) as [r1 |].
  2: { intros Hin. apply list_elem_of_singleton in Hin. injection Hin as ->. left. reflexivity. }
  destruct (Interface r1) as [[d1 |] | v].
  3: { intros Hin. apply list_elem_of_singleton in Hin. injection Hin as ->. left. reflexivity. }
  - destruct (resp !! 2%nat) as [r2 |] eqn:H2.
    2: { intros Hin. apply list_elem_of_singleton in Hin. injection Hin as ->.
         left. reflexivity. }
    destruct (Interface r2) as [[d2 |] | v] eqn:Hi2.
    3: { intros Hin. apply list_elem_of_singleton in Hin. injection Hin as ->.
         left. reflexivity. }
    + destruct d2 as [| | | | | | | [c |] | |];
        try (intros Hin; apply list_elem_of_singleton in Hin; injection Hin as ->;
             left; reflexivity).
      cbn [assert_CodePtr deref].
      destruct (assert_error (Some d1)) as [er | v];
        intros Hin; apply list_elem_of_singleton in Hin; injection Hin as ->.
      * right. exists resp, r2. cbn [code]. auto.
      * left. reflexivity.
    + destruct (assert_error (Some d1)) as [er | v];
        intros Hin; apply list_elem_of_singleton in Hin; injection Hin as ->;
        left; reflexivity.
  - destruct (resp !! 0%nat) as [r0 |].
    2: { intros Hin. apply list_elem_of_singleton in Hin. injection Hin as ->.
         left. reflexivity. }
    destruct (Interface r0) as [d | v];
      intros Hin; apply list_elem_of_singleton in Hin.
    + discriminate.
    + injection Hin as ->. left. reflexivity.
Qed.

Lemma call_error_codes_witness :
  exists resp r2,
    Call (Value_Method ErrorMethod) (call_params bg []) = Ok resp /\
    resp !! 2%nat = Some r2 /\
    Interface r2 = Ok (Some (DCodePtr (Some INVALID_PARAMS))).
Proof.
  assert (Hin : OnErrChan {| err := errors_New "Some error here"; code := INVALID_PARAMS;
                             ce_reqId := Some "1" |}
                ∈ outcome arithSvc bg "ErrorMethod" [] (Some "1")) by left.
  destruct (call_error_codes arithSvc bg "ErrorMethod" [] (Some "1") _ Hin)
    as [[Hnone _] | (method & Hm & [Hcode | H])].
  - discriminate.
  - discriminate.
  - injection Hm as <-. exact H.
Defined.

(** ** The single-request path, end to end *)

Lemma pick_singleton (k : nat) (m : ChanMsg) : pick k [m] = Some (m, []).
Proof. destruct k; reflexivity. Qed.

(** Once the service is resolved and the message is received, the reply
    is the message's response, written under the message's id. *)
Lemma handleSingleRequest_received
    (s : jsonRpcImpl) (ctx : Context) (k : nat) (w : ResponseWriter) (rq : request)
    (sn mn : string) (svc : service) :
  Jsonrpc rq = RPC_VERSION ->
  sanitizeMethodPath (Method rq) = inr (sn, mn) ->
  services s !! sn = Some svc ->
  exists m,
    outcome svc ctx mn (Params rq) (Id rq) = [m] /\ msg_id m = Id rq /\
    handleSingleRequest s ctx (Recv k) w rq
    = Returns (writeResponse w (single_response_of m) (Id rq)).
Proof.
  intros Hv Hp Hs.
  destruct (outcome_one svc ctx mn (Params rq) (Id rq)) as (m & Hout & Hid).
  exists m. split; [exact Hout |]. split; [exact Hid |].
  unfold handleSingleRequest. rewrite Hv, Hp, Hs. cbn [bool_decide negb].
  rewrite bool_decide_eq_true_2 by reflexivity. cbn [negb].
  rewrite Hout, pick_singleton.
  destruct m; cbn [msg_id] in Hid;
    unfold single_response_of, writeSuccessResponse, writeErrorResponse;
    rewrite Hid; reflexivity.
Qed.

(** What [writeResponse] does for a request with an id when nothing was
    written before: the status 200, the content type put in the header
    map, and the response as the body when the encoder accepts it; when
    it refuses, the error is dropped and the body stays empty. *)
Lemma writeResponse_with_id (w : ResponseWriter) (resp : response) (i : string) :
  w_status w = None ->
  writeResponse w resp (Some i)
  = {| w_status := Some StatusOK;
       w_header := <[ "Content-Type" := "application/json" ]> (w_header w);
       w_body := w_body w ++ (if response_encodable resp then [DocResponse resp] else []) |}.
Proof.
  intros Hw. unfold writeResponse, json_Marshal, Write_bytes, Write, Header_Set,
    WriteHeader.
  destruct (response_encodable resp); simpl; rewrite Hw; simpl;
    rewrite ?app_nil_r; reflexivity.
Qed.

Lemma writeResponse_body (w : ResponseWriter) (resp : response) (i : string) :
  w_body (writeResponse w resp (Some i))
  = w_body w ++ (if response_encodable resp then [DocResponse resp] else []).
Proof.
  unfold writeResponse, json_Marshal, Write_bytes.
  destruct (response_encodable resp).
  - rewrite Write_body. unfold Header_Set. simpl. rewrite WriteHeader_body. reflexivity.
  - rewrite WriteHeader_body. unfold Header_Set. simpl.
    rewrite WriteHeader_body, app_nil_r. reflexivity.
Qed.

(** X8: for a resolved service and method, a request with an id and a
    writer nothing was written to, in the run where the select receives
    the outcome, the reply is fixed by what the handler does.  If it
    returns a nil error, the reply is the status 200 and the success
    response carrying its first output, whatever the other outputs are
    (a code returned with a nil error is ignored), unless the encoder
    refuses that output: then the reply is the status 200 and an empty
    body.  If it returns an error and a code, the reply is the error
    response with that error's message and that code, whatever the first
    output is.  If the call panics, the reply is the INTERNAL_ERROR
    response naming the panic. *)
Theorem handleSingleRequest_handler_reply
    (s : jsonRpcImpl) (ctx : Context) (k : nat) (w : ResponseWriter) (rq : request)
    (sn mn i : string) (svc : service) (method : MethodValue) :
  Jsonrpc rq = RPC_VERSION ->
  sanitizeMethodPath (Method rq) = inr (sn, mn) ->
  services s !! sn = Some svc ->
  methods svc !! mn = Some method ->
  Id rq = Some i ->
  w_status w = None ->
  let reply := fun (docs : list Doc) =>
    {| w_status := Some 200;
       w_header := <[ "Content-Type" := "application/json" ]> (w_header w);
       w_body := w_body w ++ docs |} in
  (forall r rest d,
     Call method (call_params ctx (Params rq)) = Ok (r :: VIface TError None :: rest) ->
     Interface r = Ok d ->
     handleSingleRequest s ctx (Recv k) w rq
     = Returns (reply (if encodable d
                       then [DocResponse {| res_Jsonrpc := "2.0"; res_Id := Some i;
                                            Result := Some d; Error_ := None |}]
                       else []))) /\
  (forall r er c rest,
     Call method (call_params ctx (Params rq))
     = Ok (r :: VIface TError (Some (DError er)) :: VConcrete (DCodePtr (Some c)) :: rest) ->
     handleSingleRequest s ctx (Recv k) w rq
     = Returns (reply [DocResponse
                         {| res_Jsonrpc := "2.0"; res_Id := Some i; Result := None;
                            Error_ := Some {| Code := c; Data := Some None;
                                              Message := Error er |} |}])) /\
  (forall v,
     Call method (call_params ctx (Params rq)) = Panic v ->
     handleSingleRequest s ctx (Recv k) w rq
     = Returns (reply [DocResponse
                         {| res_Jsonrpc := "2.0"; res_Id := Some i; Result := None;
                            Error_ := Some {| Code := INTERNAL_ERROR; Data := Some None;
                                              Message := "Internal error: Panic " +:+ v |}
                         |}])).
Proof.
  intros Hv Hp Hs Hm Hid Hw reply.
  destruct (handleSingleRequest_received s ctx k w rq sn mn svc Hv Hp Hs)
    as (m & Hout & _ & ->).
  rewrite Hid in *. rewrite (writeResponse_with_id _ _ _ Hw).
  split; [| split].
  - intros r rest d Hcall Hr.
    rewrite (outcome_of_success svc ctx mn (Params rq) (Some i) method r rest d
               Hm Hcall Hr) in Hout.
    injection Hout as <-. unfold reply. simpl.
    unfold response_encodable. simpl. rewrite andb_true_r. reflexivity.
  - intros r er c rest Hcall.
    rewrite (outcome_of_error svc ctx mn (Params rq) (Some i) method r er c rest
               Hm Hcall) in Hout.
    injection Hout as <-. reflexivity.
  - intros v Hcall.
    rewrite (outcome_of_panic svc ctx mn (Params rq) (Some i) method v Hm Hcall) in Hout.
    injection Hout as <-. reflexivity.
Qed.

Lemma handleSingleRequest_handler_reply_witness :
  handleSingleRequest testRpc bg (Recv 0) new_writer echoRequest
  = Returns
      {| w_status := Some 200;
         w_header := {[ "Content-Type" := "application/json" ]};
         w_body := [DocResponse {| res_Jsonrpc := "2.0"; res_Id := Some "1";
                                   Result := Some (Some (DString "hi"));
                                   Error_ := None |}] |} /\
  handleSingleRequest calcRpc bg (Recv 0) new_writer limitRequest
  = Returns
      {| w_status := Some 200;
         w_header := {[ "Content-Type" := "application/json" ]};
         w_body := [] |}.
Proof.
  split.
  - destruct (handleSingleRequest_handler_reply testRpc bg 0 new_writer echoRequest
                "Arith" "Echo" "1" arithSvc (Value_Method Echo)
                eq_refl eq_refl eq_refl eq_refl eq_refl eq_refl) as [Hok _].
    exact (Hok (VConcrete (DString "hi")) [VConcrete (DCodePtr None)]
             (Some (DString "hi")) eq_refl eq_refl).
  - destruct (handleSingleRequest_handler_reply calcRpc bg 0 new_writer limitRequest
                "Calc" "Limit" "9" calcSvc (Value_Method Limit)
                eq_refl eq_refl eq_refl eq_refl eq_refl eq_refl) as [Hok _].
    exact (Hok (VConcrete (DFloat64 9218868437227405312)) [VConcrete (DCodePtr None)]
             (Some (DFloat64 9218868437227405312)) eq_refl eq_refl).
Defined.

Lemma single_response_of_well_formed (m : ChanMsg) :
  well_formed (single_response_of m) /\ res_Id (single_response_of m) = msg_id m.
Proof.
  destruct m; (split; [split; [reflexivity |] | reflexivity]).
  - left. split; [eexists; reflexivity | reflexivity].
  - right. split; [reflexivity | eexists; reflexivity].
Qed.

Lemma makeErrorResponse_well_formed (e : error) (c : RpcErrorCode) (dat : option any)
    (id : option string) :
  well_formed (makeErrorResponse e c dat id).
Proof. split; [reflexivity |]. right. split; [reflexivity | eexists; reflexivity]. Qed.

(** Every run of the single path returns, with the response of one of
    its five exits written under the request's id; in the cancelled run
    of a resolved service the goroutine left behind panics after that. *)
Lemma handleSingleRequest_returns
    (s : jsonRpcImpl) (ctx : Context) (ch : Choice) (w : ResponseWriter) (rq : request) :
  exists resp,
    (handleSingleRequest s ctx ch w rq = Returns (writeResponse w resp (Id rq)) \/
     (ch = CtxDone /\
      (Jsonrpc rq = RPC_VERSION /\
       exists sn mn, sanitizeMethodPath (Method rq) = inr (sn, mn) /\
                     is_Some (services s !! sn)) /\
      handleSingleRequest s ctx ch w rq
      = ReturnsThenPanic (writeResponse w resp (Id rq)) "send on closed channel")) /\
    well_formed resp /\ res_Id resp = Id rq.
Proof.
  destruct (decide (Jsonrpc rq = RPC_VERSION)) as [Hv | Hv].
  2: { eexists. split; [left | split; [apply makeErrorResponse_well_formed | reflexivity]].
       unfold handleSingleRequest. rewrite bool_decide_eq_false_2 by exact Hv.
       reflexivity. }
  destruct (sanitizeMethodPath (Method rq)) as [e | [sn mn]] eqn:Hp.
  { eexists. split; [left | split; [apply makeErrorResponse_well_formed | reflexivity]].
    unfold handleSingleRequest. rewrite bool_decide_eq_true_2 by exact Hv.
    rewrite Hp. reflexivity. }
  destruct (services s !! sn) as [svc |] eqn:Hs.
  2: { eexists. split; [left | split; [apply makeErrorResponse_well_formed | reflexivity]].
       unfold handleSingleRequest. rewrite bool_decide_eq_true_2 by exact Hv.
       rewrite Hp, Hs. reflexivity. }
  destruct ch as [k |].
  - destruct (handleSingleRequest_received s ctx k w rq sn mn svc Hv Hp Hs)
      as (m & _ & Hid & ->).
    exists (single_response_of m). split; [left; reflexivity |].
    destruct (single_response_of_well_formed m) as [Hwf Hrid].
    split; [exact Hwf | congruence].
  - eexists. split; [right | split; [apply makeErrorResponse_well_formed | reflexivity]].
    split; [reflexivity |].
    split; [split; [exact Hv |]; exists sn, mn; rewrite Hs; eauto |].
    unfold handleSingleRequest. rewrite bool_decide_eq_true_2 by exact Hv.
    rewrite Hp, Hs. cbv zeta. rewrite abandoned_panics. reflexivity.
Qed.

(** X9: every run of the single path ends with the coordinator
    returning, after one call of [writeResponse]; only in the cancelled
    run of a resolved service does something follow, the panic of the
    goroutine left behind.  A request without id gets the status 204
    and no body, whether it was rejected, failed, succeeded or was
    cancelled.  For a request with an id the status is 200 and the body
    gains at most one document: one response that echoes the id, has
    the version "2.0" and carries either a result or an error, or
    nothing at all when the encoder refuses that response. *)
Theorem handleSingleRequest_reply
    (s : jsonRpcImpl) (ctx : Context) (ch : Choice) (w : ResponseWriter) (rq : request) :
  exists w',
    (handleSingleRequest s ctx ch w rq = Returns w' \/
     (ch = CtxDone /\
      handleSingleRequest s ctx ch w rq = ReturnsThenPanic w' "send on closed channel")) /\
    match Id rq with
    | None => w' = WriteHeader StatusNoContent w
    | Some i =>
        exists resp,
          res_Id resp = Some i /\ well_formed resp /\
          w_status w' = Some (default StatusOK (w_status w)) /\
          w_body w'
          = w_body w ++ (if response_encodable resp then [DocResponse resp] else [])
    end.
Proof.
  destruct (handleSingleRequest_returns s ctx ch w rq) as (resp & Hret & Hwf & Hid).
  exists (writeResponse w resp (Id rq)). split.
  - destruct Hret as [Hret | (Hch & _ & Hret)]; [left | right; split]; assumption.
  - destruct (Id rq) as [i |]; [| reflexivity].
    exists resp. split; [exact Hid |]. split; [exact Hwf |].
    split; [| apply writeResponse_body].
    unfold writeResponse, json_Marshal, Write_bytes, Write, Header_Set, WriteHeader.
    destruct (response_encodable resp); destruct (w_status w) eqn:E; simpl;
      rewrite ?E; simpl; rewrite ?E; reflexivity.
Qed.

(** X10: cancellation only matters once the service is resolved.  A
    request rejected by the version check, the path check or the
    registry gets the same reply, and the coordinator returns, whatever
    the select would have chosen.  For a resolved service, a context
    that is done first makes the coordinator write the INTERNAL_ERROR
    response "Request canceled" under the request's id, whether or not
    the method exists and whatever the handler does, and close the
    channels under the goroutine, whose send then panics outside any
    [recover]. *)
Theorem handleSingleRequest_cancellation
    (s : jsonRpcImpl) (ctx : Context) (w : ResponseWriter) (rq : request) :
  (forall sn mn svc i,
     Jsonrpc rq = RPC_VERSION ->
     sanitizeMethodPath (Method rq) = inr (sn, mn) ->
     services s !! sn = Some svc ->
     Id rq = Some i ->
     w_status w = None ->
     call svc ctx mn (Params rq) (Id rq) ChanClosed []
     = ([], Panic "send on closed channel") /\
     handleSingleRequest s ctx CtxDone w rq
     = ReturnsThenPanic
         {| w_status := Some 200;
            w_header := <[ "Content-Type" := "application/json" ]> (w_header w);
            w_body := w_body w ++
              [DocResponse {| res_Jsonrpc := "2.0"; res_Id := Some i; Result := None;
                              Error_ := Some {| Code := INTERNAL_ERROR; Data := Some None;
                                                Message := "Request canceled" |} |}] |}
         "send on closed channel") /\
  ((Jsonrpc rq <> RPC_VERSION \/
    (exists e, sanitizeMethodPath (Method rq) = inl e) \/
    (exists sn mn, sanitizeMethodPath (Method rq) = inr (sn, mn) /\
                   services s !! sn = None)) ->
   exists w', forall ch, handleSingleRequest s ctx ch w rq = Returns w').
Proof.
  split.
  - intros sn mn svc i Hv Hp Hs Hid Hw. split; [apply call_closed |].
    unfold handleSingleRequest.
    rewrite bool_decide_eq_true_2 by exact Hv. rewrite Hp, Hs. cbv zeta.
    rewrite abandoned_panics, Hid. cbn [negb]. unfold writeErrorResponse.
    rewrite (writeResponse_with_id _ _ _ Hw). reflexivity.
  - intros Hrej. unfold handleSingleRequest.
    destruct Hrej as [Hv | [[e Hp] | (sn & mn & Hp & Hs)]].
    + rewrite bool_decide_eq_false_2 by exact Hv. eexists. intros ch. reflexivity.
    + rewrite Hp. destruct (negb _); eexists; intros ch; reflexivity.
    + rewrite Hp, Hs. destruct (negb _); eexists; intros ch; reflexivity.
Qed.

Lemma handleSingleRequest_cancellation_witness :
  handleSingleRequest testRpc bg CtxDone new_writer echoRequest
  = ReturnsThenPanic
      {| w_status := Some 200;
         w_header := {[ "Content-Type" := "application/json" ]};
         w_body :=
           [DocResponse {| res_Jsonrpc := "2.0"; res_Id := Some "1"; Result := None;
                           Error_ := Some {| Code := INTERNAL_ERROR; Data := Some None;
                                             Message := "Request canceled" |} |}] |}
      "send on closed channel" /\
  exists w', forall ch, handleSingleRequest testRpc bg ch new_writer strangerRequest
                        = Returns w'.
Proof.
  destruct (handleSingleRequest_cancellation testRpc bg new_writer echoRequest)
    as [Hdone _].
  destruct (handleSingleRequest_cancellation testRpc bg new_writer strangerRequest)
    as [_ Hsame].
  split.
  - exact (proj2 (Hdone "Arith" "Echo" arithSvc "1" eq_refl eq_refl eq_refl eq_refl
                    eq_refl)).
  - apply Hsame. right. right. exists "Geometry", "Area". split; reflexivity.
Defined.

(** ** The batch path: when it returns and what it emits *)

(** The loop reads one choice per iteration and nothing after them. *)
Lemma fan_in_take (n : nat) :
  forall (sched : list Choice) (pending : list ChanMsg) (responses : list response)
         (mu : Mutex),
    fan_in n sched pending responses mu = fan_in n (take n sched) pending responses mu.
Proof.
  induction n as [| n IH]; intros sched pending responses mu; [reflexivity |].
  destruct sched as [| c sched]; [reflexivity |].
  cbn [fan_in take tail]. unfold_run.
  destruct (select_step c pending responses mu) as [[[p r] m] | | | [[p r] m] v];
    [apply IH | reflexivity | reflexivity |].
  rewrite (IH sched p r m). reflexivity.
Qed.

Lemma fan_in_cancelled (n : nat) :
  forall (sched : list Choice) (pending : list ChanMsg) (responses : list response),
    length pending = n ->
    CtxDone ∈ take n sched ->
    fan_in n sched pending responses Unlocked = Fatal unlock_fault.
Proof.
  induction n as [| n IH]; intros sched pending responses Hlen Hin.
  - inversion Hin.
  - destruct sched as [| c sched]; [inversion Hin |].
    cbn [take] in Hin. cbn [fan_in tail].
    destruct c as [k |]; [| rewrite select_step_CtxDone; reflexivity].
    apply elem_of_cons in Hin as [Heq | Hin]; [discriminate |].
    destruct (pick_is_Some k pending) as (m & rest & Hp).
    { destruct pending; [discriminate | congruence]. }
    rewrite (select_step_Recv _ _ _ _ _ Hp). unfold_run.
    apply IH; [| exact Hin].
    apply pick_Permutation, Permutation_length in Hp. cbn in Hp. lia.
Qed.

Lemma fan_in_returns (n : nat) (sched : list Choice) (pending : list ChanMsg)
    (responses : list response) :
  length pending = n ->
  CtxDone ∉ take n sched ->
  exists picked,
    fan_in n sched pending responses Unlocked
    = Returns (responses ++ map response_of picked, Unlocked) /\
    picked ≡ₚ pending.
Proof.
  intros Hlen Hnot. rewrite fan_in_take.
  apply fan_in_no_cancellation; assumption.
Qed.

(** X11: whether a batch is answered depends only on the first [n]
    choices of the schedule, [n] being the number of calls it scheduled.
    If the context is done at one of them the process aborts on the
    unlock of the unlocked mutex and nothing is written; otherwise the
    coordinator returns, having received every call's message exactly
    once, and writes the collection.  It never waits forever, and a
    batch that schedules no call is answered whatever the context does. *)
Theorem handleBatchRequest_returns_or_aborts
    (s : jsonRpcImpl) (ctx : Context) (sched : list Choice) (w : ResponseWriter)
    (requests : list request) :
  (CtxDone ∈ take (scheduled_count s requests) sched ->
   handleBatchRequest s ctx sched w requests = Fatal unlock_fault) /\
  (CtxDone ∉ take (scheduled_count s requests) sched ->
   exists picked,
     picked ≡ₚ fan_out ctx (snd (validate s requests)) /\
     handleBatchRequest s ctx sched w requests
     = Returns (writeBatchResponse w
                  (fst (validate s requests) ++ map response_of picked))) /\
  (scheduled_count s requests = 0%nat ->
   handleBatchRequest s ctx sched w requests
   = Returns (writeBatchResponse w (fst (validate s requests)))).
Proof.
  unfold scheduled_count, handleBatchRequest.
  destruct (validate s requests) as [responses validServices]. cbn [fst snd].
  destruct (fan_out_ids ctx validServices) as [_ Hlen].
  split; [| split].
  - intros Hin. rewrite (fan_in_cancelled _ _ _ _ Hlen Hin). reflexivity.
  - intros Hnot.
    destruct (fan_in_returns _ sched _ responses Hlen Hnot) as (picked & -> & Hperm).
    exists picked. split; [exact Hperm | reflexivity].
  - intros H0. rewrite H0. reflexivity.
Qed.

Lemma handleBatchRequest_returns_or_aborts_witness :
  handleBatchRequest testRpc bg [Recv 0; CtxDone] new_writer [echoRequest; echoRequest2]
  = Fatal unlock_fault /\
  handleBatchRequest testRpc bg [CtxDone] new_writer [oldVersion]
  = Returns (writeBatchResponse new_writer
               [makeErrorResponse invalid_version INVALID_REQUEST None (Some "3")]).
Proof.
  destruct (handleBatchRequest_returns_or_aborts testRpc bg [Recv 0; CtxDone] new_writer
              [echoRequest; echoRequest2]) as (Habort & _ & _).
  destruct (handleBatchRequest_returns_or_aborts testRpc bg [CtxDone] new_writer
              [oldVersion]) as (_ & _ & Hnone).
  split.
  - apply Habort. right. left.
  - exact (Hnone eq_refl).
Defined.

(** What the first loop leaves in its two lists, by induction on the
    requests still to come. *)
Lemma validate_invariant (s : jsonRpcImpl) (P : response -> Prop)
    (Q : batchServiceRequestType -> Prop) (requests : list request) :
  (forall e c id, validation_code c -> P (makeErrorResponse e c None id)) ->
  (forall rq sn mn svc,
     rq ∈ requests -> Jsonrpc rq = RPC_VERSION ->
     sanitizeMethodPath (Method rq) = inr (sn, mn) ->
     services s !! sn = Some svc ->
     Q {| methodName := mn; req := rq; bs_service := svc |}) ->
  forall responses validServices,
    Forall P responses -> Forall Q validServices ->
    Forall P (fst (foldl (validate_step s) (responses, validServices) requests)) /\
    Forall Q (snd (foldl (validate_step s) (responses, validServices) requests)).
Proof.
  intros HP. induction requests as [| rq rqs IH]; intros HQ responses validServices Hr Hv.
  - split; assumption.
  - cbn [foldl].
    assert (HQ' : forall rq0 sn mn svc,
              rq0 ∈ rqs -> Jsonrpc rq0 = RPC_VERSION ->
              sanitizeMethodPath (Method rq0) = inr (sn, mn) ->
              services s !! sn = Some svc ->
              Q {| methodName := mn; req := rq0; bs_service := svc |}).
    { intros rq0 sn mn svc Hin. apply HQ. right. exact Hin. }
    unfold validate_step at 2 4. case_bool_decide as Hver; cbn [negb].
    + destruct (sanitizeMethodPath (Method rq)) as [e | [sn mn]] eqn:Hp.
      * apply (IH HQ'); [| exact Hv]. apply Forall_app. split; [exact Hr |].
        constructor; [| constructor]. apply HP. right. left. reflexivity.
      * destruct (services s !! sn) as [svc |] eqn:Hs.
        -- apply (IH HQ'); [exact Hr |]. apply Forall_app. split; [exact Hv |].
           constructor; [| constructor]. apply (HQ rq sn mn svc); auto. left.
        -- apply (IH HQ'); [| exact Hv]. apply Forall_app. split; [exact Hr |].
           constructor; [| constructor]. apply HP. right. right. reflexivity.
    + apply (IH HQ'); [| exact Hv]. apply Forall_app. split; [exact Hr |].
      constructor; [| constructor]. apply HP. left. reflexivity.
Qed.

Lemma validate_partition (s : jsonRpcImpl) (requests : list request) :
  forall responses validServices,
    (length (fst (foldl (validate_step s) (responses, validServices) requests))
     + length (snd (foldl (validate_step s) (responses, validServices) requests))
     = length responses + length validServices + length requests)%nat.
Proof.
  induction requests as [| rq rqs IH]; intros responses validServices; cbn [foldl].
  - cbn. lia.
  - destruct (validate_step_cases s responses validServices rq)
      as [(r & -> & _) | (sn & mn & svc & _ & _ & _ & ->)];
      rewrite IH, length_app; cbn; lia.
Qed.

Lemma validate_order (s : jsonRpcImpl) (requests : list request) :
  forall responses validServices,
    exists added,
      snd (foldl (validate_step s) (responses, validServices) requests)
      = validServices ++ added /\
      map req added `sublist_of` requests.
Proof.
  induction requests as [| rq rqs IH]; intros responses validServices; cbn [foldl].
  - exists []. rewrite app_nil_r. split; [reflexivity | constructor].
  - destruct (validate_step_cases s responses validServices rq)
      as [(r & -> & _) | (sn & mn & svc & _ & _ & _ & ->)].
    + destruct (IH (responses ++ [r]) validServices) as (added & -> & Hsub).
      exists added. split; [reflexivity |]. apply sublist_cons. exact Hsub.
    + destruct (IH responses
                  (validServices ++ [{| methodName := mn; req := rq; bs_service := svc |}]))
        as (added & -> & Hsub).
      exists ({| methodName := mn; req := rq; bs_service := svc |} :: added).
      rewrite <- app_assoc. split; [reflexivity |].
      cbn [map req]. apply sublist_skip. exact Hsub.
Qed.

(** X12: the first loop of the batch path splits the requests in two:
    each request either gets an error entry at once, with the code
    INVALID_REQUEST, PARSE_ERROR or METHOD_NOT_FOUND, or is scheduled,
    never both.  A call is scheduled only for a request of the batch with
    the right version, under the service and the method name its path
    names, and the scheduled calls are in the order of the requests. *)
Theorem validate_splits_the_batch (s : jsonRpcImpl) (requests : list request) :
  (length (fst (validate s requests)) + scheduled_count s requests
   = length requests)%nat /\
  Forall (fun r => exists e c id,
            r = makeErrorResponse e c None id /\ validation_code c)
         (fst (validate s requests)) /\
  Forall (fun v => req v ∈ requests /\
                   Jsonrpc (req v) = RPC_VERSION /\
                   exists sn, sanitizeMethodPath (Method (req v)) = inr (sn, methodName v) /\
                              services s !! sn = Some (bs_service v))
         (snd (validate s requests)) /\
  map req (snd (validate s requests)) `sublist_of` requests.
Proof.
  unfold scheduled_count, validate. split; [| split; [| split]].
  - rewrite validate_partition. reflexivity.
  - apply (validate_invariant s _ (fun _ => True) requests); auto.
    intros e c id Hc. eauto.
  - apply (validate_invariant s (fun _ => True) _ requests); auto.
    intros rq sn mn svc Hin Hv Hp Hs. cbn. eauto.
  - destruct (validate_order s requests [] []) as (added & -> & Hsub). exact Hsub.
Qed.

Lemma response_of_well_formed (m : ChanMsg) : well_formed (response_of m).
Proof.
  destruct m; (split; [reflexivity |]).
  - left. split; [eexists; reflexivity | reflexivity].
  - right. split; [reflexivity | eexists; reflexivity].
Qed.

Lemma Forall_filter_has_id (P : response -> Prop) (responses : list response) :
  Forall P responses ->
  Forall (fun r => P r /\ is_Some (res_Id r)) (List.filter has_id responses).
Proof.
  intros H. apply List.Forall_forall. intros r Hin.
  apply filter_In in Hin as [Hin Hid]. split.
  - rewrite List.Forall_forall in H. apply H. exact Hin.
  - unfold has_id in Hid. destruct (res_Id r); [eexists; reflexivity | discriminate].
Qed.

Lemma WriteHeader_header (c : Z) (w : ResponseWriter) :
  w_header (WriteHeader c w) = w_header w.
Proof. unfold WriteHeader. destruct (w_status w); reflexivity. Qed.

Lemma Write_header (d : Doc) (w : ResponseWriter) :
  w_header (Write d w) = w_header w.
Proof. unfold Write. cbn [w_header]. apply WriteHeader_header. Qed.

Lemma Write_status (d : Doc) (w : ResponseWriter) :
  w_status (Write d (WriteHeader StatusOK w)) = w_status (WriteHeader StatusOK w).
Proof.
  unfold Write. cbn [w_status]. unfold WriteHeader.
  destruct (w_status w) eqn:Hw; cbn [w_status]; rewrite ?Hw; reflexivity.
Qed.

Lemma fan_in_cases (n : nat) (sched : list Choice) (pending : list ChanMsg)
    (responses : list response) :
  length pending = n ->
  fan_in n sched pending responses Unlocked = Fatal unlock_fault \/
  exists picked,
    picked ≡ₚ pending /\
    fan_in n sched pending responses Unlocked
    = Returns (responses ++ map response_of picked, Unlocked).
Proof.
  intros Hlen. destruct (decide (CtxDone ∈ take n sched)) as [Hin | Hnot].
  - left. apply fan_in_cancelled; assumption.
  - right. destruct (fan_in_returns n sched pending responses Hlen Hnot)
      as (picked & Hfan & Hperm).
    eauto.
Qed.

(** A batch that is not cancelled returns, and its collection holds the
    entries of the rejected requests and, for every scheduled request,
    the entry built from the message of its call. *)
Lemma handleBatchRequest_collects
    (s : jsonRpcImpl) (ctx : Context) (sched : list Choice) (w : ResponseWriter)
    (requests : list request) :
  CtxDone ∉ take (scheduled_count s requests) sched ->
  exists collected,
    handleBatchRequest s ctx sched w requests
    = Returns (writeBatchResponse w collected) /\
    (forall r, r ∈ fst (validate s requests) -> r ∈ collected) /\
    (forall rq sn mn svc m,
       rq ∈ requests -> Jsonrpc rq = RPC_VERSION ->
       sanitizeMethodPath (Method rq) = inr (sn, mn) ->
       services s !! sn = Some svc ->
       outcome svc ctx mn (Params rq) (Id rq) = [m] ->
       response_of m ∈ collected).
Proof.
  intros Hnot. unfold scheduled_count, handleBatchRequest in *.
  pose proof (fun rq sn mn svc => validate_schedules s requests [] [] rq sn mn svc)
    as Hsched.
  fold (validate s requests) in Hsched.
  destruct (validate s requests) as [responses validServices]. cbn [fst snd] in *.
  destruct (fan_out_ids ctx validServices) as [_ Hlen].
  destruct (fan_in_returns _ sched _ responses Hlen Hnot) as (picked & -> & Hperm).
  exists (responses ++ map response_of picked). split; [reflexivity |]. split.
  - intros r Hr. apply elem_of_app. left. exact Hr.
  - intros rq sn mn svc m Hin Hv Hp Hs Hout.
    apply elem_of_app. right. apply (list_elem_of_fmap_2 response_of).
    rewrite Hperm.
    eapply fan_out_contains; [exact (Hsched rq sn mn svc Hin Hv Hp Hs) |].
    cbn [bs_service methodName req]. rewrite Hout. left.
Qed.

(** X13: whenever a batch is answered, the status is 200, the header
    map is left as it was (no content type is put in it), and the body
    gains at most one document: the array of the collected entries that
    have an id, each with the version "2.0" and either a result or an
    error, when the encoder accepts every one of them, and nothing when
    it refuses one. *)
Theorem handleBatchRequest_entries
    (s : jsonRpcImpl) (ctx : Context) (sched : list Choice) (w w' : ResponseWriter)
    (requests : list request) :
  handleBatchRequest s ctx sched w requests = Returns w' ->
  exists collected out,
    w' = writeBatchResponse w collected /\
    out = List.filter has_id collected /\
    Forall (fun r => well_formed r /\ is_Some (res_Id r)) out /\
    w' = (if forallb response_encodable out
          then Write (DocBatch out) (WriteHeader StatusOK w)
          else WriteHeader StatusOK w) /\
    w_header w' = w_header w /\
    (w_status w = None -> w_status w' = Some StatusOK) /\
    w_body w' = w_body w ++ (if forallb response_encodable out then [DocBatch out] else []).
Proof.
  intros Hret. unfold handleBatchRequest in Hret.
  pose proof (validate_invariant s well_formed (fun _ => True) requests
                (fun e c id _ => makeErrorResponse_well_formed e c None id)
                (fun _ _ _ _ _ _ _ _ => I) [] [] (List.Forall_nil _) (List.Forall_nil _))
    as [Hwf _].
  fold (validate s requests) in Hwf.
  destruct (validate s requests) as [responses validServices]. cbn [fst snd] in *.
  destruct (fan_out_ids ctx validServices) as [_ Hlen].
  destruct (fan_in_cases _ sched _ responses Hlen) as [Habort | (picked & _ & Hfan)].
  - rewrite Habort in Hret. discriminate.
  - rewrite Hfan in Hret. cbn in Hret. injection Hret as <-.
    exists (responses ++ map response_of picked),
      (List.filter has_id (responses ++ map response_of picked)).
    split; [reflexivity |]. split; [reflexivity |]. split.
    { apply Forall_filter_has_id, Forall_app. split; [exact Hwf |].
      apply Forall_fmap, Forall_true. intros m. apply response_of_well_formed. }
    split; [apply writeBatchResponse_filter |].
    split; [| split; [| apply writeBatchResponse_body]].
    + rewrite writeBatchResponse_filter. destruct (forallb _ _).
      * rewrite Write_header, WriteHeader_header. reflexivity.
      * apply WriteHeader_header.
    + intros Hw. rewrite writeBatchResponse_filter. destruct (forallb _ _).
      * rewrite Write_status. unfold WriteHeader. rewrite Hw. reflexivity.
      * unfold WriteHeader. rewrite Hw. reflexivity.
Qed.

Lemma handleBatchRequest_entries_witness :
  handleBatchRequest testRpc bg [] new_writer [echoRequest; echoNotification]
  = Returns
      {| w_status := Some 200; w_header := ∅;
         w_body := [DocBatch [{| res_Jsonrpc := "2.0"; res_Id := Some "1";
                                 Result := Some (Some (DString "hi"));
                                 Error_ := None |}]] |} /\
  handleBatchRequest calcRpc bg [] new_writer [limitRequest]
  = Returns {| w_status := Some 200; w_header := ∅; w_body := [] |}.
Proof.
  split.
  - destruct (handleBatchRequest_entries testRpc bg [] new_writer
                (writeBatchResponse new_writer
                   [makeSuccessResponse (Some (Some (DString "hi"))) (Some "1");
                    makeSuccessResponse (Some (Some (DString "quiet"))) None])
                [echoRequest; echoNotification] eq_refl)
      as (collected & out & Hw & _ & _ & _ & _ & _ & _).
    reflexivity.
  - destruct (handleBatchRequest_entries calcRpc bg [] new_writer
                (writeBatchResponse new_writer
                   [makeSuccessResponse (Some (Some (DFloat64 9218868437227405312)))
                      (Some "9")])
                [limitRequest] eq_refl)
      as (collected & out & Hw & _ & _ & _ & _ & _ & _).
    reflexivity.
Defined.

Lemma fan_in_in_order (n : nat) :
  forall (sched : list Choice) (pending : list ChanMsg) (responses : list response),
    Forall (fun c => c = Recv 0) sched ->
    length pending = n ->
    fan_in n sched pending responses Unlocked
    = Returns (responses ++ map response_of pending, Unlocked).
Proof.
  induction n as [| n IH]; intros sched pending responses Hs Hlen.
  - destruct pending; [| discriminate]. cbn. rewrite app_nil_r. reflexivity.
  - destruct pending as [| m rest]; [discriminate |].
    assert (Hhead : match sched with c :: _ => c | [] => Recv 0 end = Recv 0).
    { destruct Hs; [reflexivity | assumption]. }
    assert (Htail : Forall (fun c => c = Recv 0) (tail sched)).
    { destruct Hs; [constructor | assumption]. }
    cbn [fan_in]. rewrite Hhead.
    rewrite (select_step_Recv 0 m rest (m :: rest) responses eq_refl). unfold_run.
    rewrite (IH (tail sched) rest _ Htail) by (cbn in Hlen; lia).
    rewrite <- app_assoc. reflexivity.
Qed.

(** X14: when the calls' messages are received in the order the calls
    were started (every select takes the first waiting sender), the
    collection is the error entries of the rejected requests, in request
    order, followed by one entry per scheduled call, in request order,
    each under the id of its request. *)
Theorem handleBatchRequest_in_order
    (s : jsonRpcImpl) (ctx : Context) (sched : list Choice) (w : ResponseWriter)
    (requests : list request) :
  Forall (fun c => c = Recv 0) sched ->
  exists outcomes,
    handleBatchRequest s ctx sched w requests
    = Returns (writeBatchResponse w (fst (validate s requests) ++ outcomes)) /\
    map res_Id outcomes = map scheduled_id (snd (validate s requests)) /\
    outcomes = map response_of (fan_out ctx (snd (validate s requests))).
Proof.
  intros Hs. unfold handleBatchRequest.
  destruct (validate s requests) as [responses validServices]. cbn [fst snd].
  destruct (fan_out_ids ctx validServices) as [Hids Hlen].
  rewrite (fan_in_in_order _ sched _ responses Hs Hlen).
  eexists. split; [reflexivity |]. split; [| reflexivity].
  rewrite <- Hids, map_map. apply map_ext. intros m. apply res_Id_response_of.
Qed.

Lemma handleBatchRequest_in_order_witness :
  handleBatchRequest testRpc bg [] new_writer [echoRequest; oldVersion; echoRequest2]
  = Returns (writeBatchResponse new_writer
               [makeErrorResponse invalid_version INVALID_REQUEST None (Some "3");
                makeSuccessResponse (Some (Some (DString "hi"))) (Some "1");
                makeSuccessResponse (Some (Some (DString "ho"))) (Some "2")]).
Proof.
  destruct (handleBatchRequest_in_order testRpc bg [] new_writer
              [echoRequest; oldVersion; echoRequest2] (List.Forall_nil _))
    as (outcomes & -> & _ & ->).
  reflexivity.
Defined.

Lemma filter_has_id_none (responses : list response) :
  Forall (fun r => res_Id r = None) responses -> List.filter has_id responses = [].
Proof.
  induction 1 as [| r rs Hr _ IH]; [reflexivity |].
  cbn [List.filter]. unfold has_id at 1. rewrite Hr. exact IH.
Qed.

(** X15: a batch in which no request carries an id (the empty batch
    included) and whose loop is not cancelled is answered with the status
    200 and the empty array, not with the empty 204 reply a single
    notification gets. *)
Theorem handleBatchRequest_notifications_only
    (s : jsonRpcImpl) (ctx : Context) (sched : list Choice) (w : ResponseWriter)
    (requests : list request) :
  Forall (fun rq => Id rq = None) requests ->
  CtxDone ∉ take (scheduled_count s requests) sched ->
  handleBatchRequest s ctx sched w requests
  = Returns (Write (DocBatch []) (WriteHeader StatusOK w)).
Proof.
  intros Hnone Hnot. unfold scheduled_count, handleBatchRequest in *.
  pose proof (validate_ids s requests [] []) as Hids. fold (validate s requests) in Hids.
  destruct (validate s requests) as [responses validServices]. cbn [fst snd] in *.
  destruct (fan_out_ids ctx validServices) as [Hmsg Hlen].
  destruct (fan_in_returns _ sched _ responses Hlen Hnot) as (picked & -> & Hperm).
  cbn. rewrite writeBatchResponse_filter.
  rewrite filter_has_id_none; [reflexivity |].
  assert (Hall : Forall (fun o : option string => o = None)
                   (map res_Id responses ++ map scheduled_id validServices)).
  { rewrite Hids. cbn [app]. apply Forall_fmap. exact Hnone. }
  apply Forall_app in Hall as [Hr Hv].
  apply Forall_app. split.
  - apply Forall_fmap in Hr. exact Hr.
  - rewrite <- Hmsg, <- Hperm in Hv. apply Forall_fmap in Hv.
    apply Forall_fmap. eapply Forall_impl; [exact Hv |].
    intros m Hm. cbn in *. rewrite res_Id_response_of. exact Hm.
Qed.

Lemma handleBatchRequest_notifications_only_witness :
  handleBatchRequest testRpc bg [Recv 1] new_writer twoNotifications
  = Returns {| w_status := Some StatusOK; w_header := ∅; w_body := [DocBatch []] |}.
Proof.
  assert (Hnone : Forall (fun rq => Id rq = None) twoNotifications).
  { repeat constructor. }
  assert (Hn : scheduled_count testRpc twoNotifications = 2%nat)
    by (vm_compute; reflexivity).
  assert (Hnot : CtxDone ∉ take (scheduled_count testRpc twoNotifications) [Recv 1]).
  { rewrite Hn. intros Hin. apply list_elem_of_In in Hin.
    destruct Hin as [Hin | []]. discriminate. }
  rewrite (handleBatchRequest_notifications_only testRpc bg [Recv 1] new_writer
             twoNotifications Hnone Hnot).
  reflexivity.
Defined.

(** ** The entry point *)

Lemma handleBatchRequest_cases
    (s : jsonRpcImpl) (ctx : Context) (sched : list Choice) (w : ResponseWriter)
    (requests : list request) :
  (CtxDone ∈ take (scheduled_count s requests) sched /\
   handleBatchRequest s ctx sched w requests = Fatal unlock_fault) \/
  (exists w', handleBatchRequest s ctx sched w requests = Returns w').
Proof.
  unfold scheduled_count, handleBatchRequest.
  destruct (validate s requests) as [responses validServices]. cbn [fst snd].
  destruct (fan_out_ids ctx validServices) as [_ Hlen].
  destruct (decide (CtxDone ∈ take (length validServices) sched)) as [Hin | Hnot].
  - left. split; [exact Hin |].
    rewrite (fan_in_cancelled _ _ _ _ Hlen Hin). reflexivity.
  - right. destruct (fan_in_returns _ sched _ responses Hlen Hnot) as (picked & -> & _).
    eexists. reflexivity.
Qed.

(** X16: what [handle] can do with a request.  A body that cannot be
    read gets the empty 204 reply; a body that decodes as a single
    request is handled as one, whatever the batch decoder would say;
    [handle] never waits forever.  The process is ended in two ways
    only: by the mutex fault of the batch path, for a body that decodes
    only as a batch, with at least one call scheduled and a schedule in
    which the context is done; and, after [handle] has returned, by the
    panic of the goroutine left behind on closed channels, for a single
    request with the right version whose service resolves and whose
    select takes [ctx.Done()]. *)
Theorem handle_outcomes
    (dec : json_Decoder) (s : jsonRpcImpl) (sched : list Choice) (w : ResponseWriter)
    (r : http_Request) :
  (forall e, r_Body r = inl e ->
     handle dec s sched w r = Returns (WriteHeader StatusNoContent w)) /\
  (forall body rq, r_Body r = inr body -> Unmarshal_request dec body = Some rq ->
     handle dec s sched w r
     = handleSingleRequest s (r_Context r)
         (match sched with c :: _ => c | [] => Recv 0 end) w rq) /\
  handle dec s sched w r <> Blocks /\
  (forall msg, handle dec s sched w r = Fatal msg ->
     msg = unlock_fault /\ CtxDone ∈ sched /\
     exists body batch,
       r_Body r = inr body /\ Unmarshal_request dec body = None /\
       Unmarshal_batch dec body = Some batch /\ scheduled_count s batch <> 0%nat) /\
  (forall w' v, handle dec s sched w r = ReturnsThenPanic w' v ->
     v = "send on closed channel" /\ head sched = Some CtxDone /\
     exists body rq sn mn,
       r_Body r = inr body /\ Unmarshal_request dec body = Some rq /\
       Jsonrpc rq = RPC_VERSION /\
       sanitizeMethodPath (Method rq) = inr (sn, mn) /\
       is_Some (services s !! sn)) /\
  (forall body rq sn mn sched',
     r_Body r = inr body -> Unmarshal_request dec body = Some rq ->
     Jsonrpc rq = RPC_VERSION ->
     sanitizeMethodPath (Method rq) = inr (sn, mn) ->
     is_Some (services s !! sn) ->
     sched = CtxDone :: sched' ->
     exists w', handle dec s sched w r = ReturnsThenPanic w' "send on closed channel").
Proof.
  unfold handle, readRequest.
  split; [| split; [| split; [| split; [| split]]]].
  - intros e ->. reflexivity.
  - intros body rq -> ->. reflexivity.
  - destruct (r_Body r) as [e | body]; [discriminate |].
    destruct (Unmarshal_request dec body) as [rq |].
    + destruct (handleSingleRequest_returns s (r_Context r)
                  (match sched with c :: _ => c | [] => Recv 0 end) w rq)
        as (resp & [-> | (_ & _ & ->)] & _); discriminate.
    + destruct (Unmarshal_batch dec body) as [batch |]; [| discriminate].
      destruct (handleBatchRequest_cases s (r_Context r) sched w batch)
        as [[_ ->] | [w' ->]]; discriminate.
  - intros msg. destruct (r_Body r) as [e | body]; [discriminate |].
    destruct (Unmarshal_request dec body) as [rq |] eqn:Hsingle.
    + destruct (handleSingleRequest_returns s (r_Context r)
                  (match sched with c :: _ => c | [] => Recv 0 end) w rq)
        as (resp & [-> | (_ & _ & ->)] & _); discriminate.
    + destruct (Unmarshal_batch dec body) as [batch |] eqn:Hbatch; [| discriminate].
      destruct (handleBatchRequest_cases s (r_Context r) sched w batch)
        as [[Hin ->] | [w' ->]]; [| discriminate].
      intros [= <-]. split; [reflexivity |]. split.
      * eapply subseteq_take. exact Hin.
      * exists body, batch.
        split; [reflexivity |]. split; [assumption |]. split; [assumption |].
        intros H0. rewrite H0 in Hin. inversion Hin.
  - intros w' v. destruct (r_Body r) as [e | body]; [discriminate |].
    destruct (Unmarshal_request dec body) as [rq |] eqn:Hsingle.
    + destruct (handleSingleRequest_returns s (r_Context r)
                  (match sched with c :: _ => c | [] => Recv 0 end) w rq)
        as (resp & [-> | (Hch & (Hv & sn & mn & Hp & Hs) & ->)] & _); [discriminate |].
      intros [= <- <-]. split; [reflexivity |]. split.
      * destruct sched as [| c sched']; [discriminate |]. simpl in *. congruence.
      * exists body, rq, sn, mn. auto.
    + destruct (Unmarshal_batch dec body) as [batch |] eqn:Hbatch; [| discriminate].
      destruct (handleBatchRequest_cases s (r_Context r) sched w batch)
        as [[Hin ->] | [w'' ->]]; discriminate.
  - intros body rq sn mn sched' -> -> Hv Hp [svc Hs] ->.
    eexists. unfold handleSingleRequest.
    rewrite bool_decide_eq_true_2 by exact Hv. rewrite Hp, Hs. cbv zeta.
    rewrite abandoned_panics. reflexivity.
Qed.

Lemma handle_outcomes_witness :
  handle tableDecoder testRpc [CtxDone] new_writer
    {| r_Body := inr (list_byte_of_string echoPayload); r_Context := bg |}
  = ReturnsThenPanic
      {| w_status := Some 200;
         w_header := {[ "Content-Type" := "application/json" ]};
         w_body :=
           [DocResponse {| res_Jsonrpc := "2.0"; res_Id := Some "1"; Result := None;
                           Error_ := Some {| Code := INTERNAL_ERROR; Data := Some None;
                                             Message := "Request canceled" |} |}] |}
      "send on closed channel".
Proof.
  destruct (handle_outcomes tableDecoder testRpc [CtxDone] new_writer
              {| r_Body := inr (list_byte_of_string echoPayload); r_Context := bg |})
    as (_ & _ & _ & _ & _ & H).
  destruct (H (list_byte_of_string echoPayload) echoRequest "Arith" "Echo" []
              eq_refl eq_refl eq_refl eq_refl (ex_intro _ arithSvc eq_refl) eq_refl)
    as [w' Hw'].
  reflexivity.
Defined.

(** ** Requests of a batch and their entries *)

Lemma validate_keeps_responses (s : jsonRpcImpl) (requests : list request) :
  forall responses validServices r,
    r ∈ responses ->
    r ∈ fst (foldl (validate_step s) (responses, validServices) requests).
Proof.
  induction requests as [| rq rqs IH]; intros responses validServices r Hr; cbn [foldl].
  - exact Hr.
  - destruct (validate_step_cases s responses validServices rq)
      as [(r' & -> & _) | (sn & mn & svc & _ & _ & _ & ->)]; apply IH.
    + apply elem_of_app. left. exact Hr.
    + exact Hr.
Qed.

Lemma validate_rejects (s : jsonRpcImpl) (requests : list request) (rq : request)
    (r : response) :
  (forall responses validServices,
     validate_step s (responses, validServices) rq = (responses ++ [r], validServices)) ->
  rq ∈ requests ->
  forall responses validServices,
    r ∈ fst (foldl (validate_step s) (responses, validServices) requests).
Proof.
  intros Hstep. induction requests as [| rq' rqs IH]; intros Hin responses validServices.
  - inversion Hin.
  - cbn [foldl]. apply elem_of_cons in Hin as [<- | Hin].
    + rewrite Hstep. apply validate_keeps_responses. apply elem_of_app. right. left.
    + destruct (validate_step s (responses, validServices) rq') as [rs vs].
      apply IH. exact Hin.
Qed.

(** X17: a request whose version is not "2.0" is rejected before
    anything else is looked at.  As a single request it gets the
    INVALID_REQUEST response with the fixed message, however its method
    path looks and whatever the select would choose; as a member of a
    batch its INVALID_REQUEST entry is in the collection and no call is
    scheduled for it, so its handler is never run. *)
Theorem wrong_version_rejected
    (s : jsonRpcImpl) (ctx : Context) (w : ResponseWriter) (rq : request) :
  Jsonrpc rq <> RPC_VERSION ->
  (forall ch,
     handleSingleRequest s ctx ch w rq
     = Returns (writeResponse w
                  (makeErrorResponse
                     (errors_New "Invalid RPC version. jsonrpc must be 2.0")
                     INVALID_REQUEST (Some None) (Id rq))
                  (Id rq))) /\
  (forall requests,
     rq ∈ requests ->
     makeErrorResponse (errors_New "Invalid RPC version. jsonrpc must be 2.0")
       INVALID_REQUEST None (Id rq)
     ∈ fst (validate s requests) /\
     Forall (fun v => req v <> rq) (snd (validate s requests))).
Proof.
  intros Hv. split.
  - intros ch. unfold handleSingleRequest.
    rewrite bool_decide_eq_false_2 by exact Hv. reflexivity.
  - intros requests Hin. split.
    + apply (validate_rejects s requests rq); [| exact Hin].
      intros responses validServices. unfold validate_step.
      rewrite bool_decide_eq_false_2 by exact Hv. reflexivity.
    + pose proof (validate_invariant s (fun _ => True)
                    (fun v => Jsonrpc (req v) = RPC_VERSION) requests
                    (fun _ _ _ _ => I)
                    (fun _ _ _ _ _ Hver _ _ => Hver)
                    [] [] (List.Forall_nil _) (List.Forall_nil _)) as [_ Hall].
      eapply Forall_impl; [exact Hall |].
      intros v Hver Heq. cbn beta in Hver. rewrite Heq in Hver. contradiction.
Qed.

Lemma wrong_version_rejected_witness :
  handleSingleRequest testRpc bg CtxDone new_writer oldVersion
  = Returns (writeResponse new_writer
               (makeErrorResponse (errors_New "Invalid RPC version. jsonrpc must be 2.0")
                  INVALID_REQUEST (Some None) (Some "3"))
               (Some "3")).
Proof.
  assert (Hv : Jsonrpc oldVersion <> RPC_VERSION) by discriminate.
  destruct (wrong_version_rejected testRpc bg new_writer oldVersion Hv) as [Hsingle _].
  exact (Hsingle CtxDone).
Defined.

(** X18: in a batch whose loop is not cancelled, the entries collected
    with an id are encoded together: the array is written when the
    encoder accepts them all, and nothing is written after the status
    when it refuses one.  Among these entries every request with an id
    has its answer: a request with the wrong version its
    INVALID_REQUEST entry; a request that passes the checks and names a
    method of its service the entry fixed by what the handler does when
    called with the context and the params, a panic, a result with a
    nil error, or an error with its code; a request that names no
    method of its service the METHOD_NOT_FOUND entry. *)
Theorem handleBatchRequest_answers_each_id
    (s : jsonRpcImpl) (ctx : Context) (sched : list Choice) (w : ResponseWriter)
    (requests : list request) (rq : request) (i : string) :
  CtxDone ∉ take (scheduled_count s requests) sched ->
  rq ∈ requests ->
  Id rq = Some i ->
  exists collected out,
    handleBatchRequest s ctx sched w requests
    = Returns (writeBatchResponse w collected) /\
    out = List.filter has_id collected /\
    writeBatchResponse w collected
    = (if forallb response_encodable out
       then Write (DocBatch out) (WriteHeader StatusOK w)
       else WriteHeader StatusOK w) /\
    (Jsonrpc rq <> RPC_VERSION ->
     {| res_Jsonrpc := "2.0"; res_Id := Some i; Result := None;
        Error_ := Some {| Code := INVALID_REQUEST; Data := None;
                          Message := "Invalid RPC version. jsonrpc must be 2.0" |} |}
     ∈ out) /\
    (forall sn mn svc,
       Jsonrpc rq = RPC_VERSION ->
       sanitizeMethodPath (Method rq) = inr (sn, mn) ->
       services s !! sn = Some svc ->
       (methods svc !! mn = None ->
        {| res_Jsonrpc := "2.0"; res_Id := Some i; Result := None;
           Error_ := Some {| Code := METHOD_NOT_FOUND; Data := None;
                             Message := "Method " +:+ mn +:+ " does not exist on service "
                                          +:+ name svc |} |}
        ∈ out) /\
       (forall method,
          methods svc !! mn = Some method ->
          (forall v,
             Call method (call_params ctx (Params rq)) = Panic v ->
             {| res_Jsonrpc := "2.0"; res_Id := Some i; Result := None;
                Error_ := Some {| Code := INTERNAL_ERROR; Data := None;
                                  Message := "Internal error: Panic " +:+ v |} |}
             ∈ out) /\
          (forall r rest d,
             Call method (call_params ctx (Params rq))
             = Ok (r :: VIface TError None :: rest) ->
             Interface r = Ok d ->
             {| res_Jsonrpc := "2.0"; res_Id := Some i; Result := Some d;
                Error_ := None |}
             ∈ out) /\
          (forall r er c rest,
             Call method (call_params ctx (Params rq))
             = Ok (r :: VIface TError (Some (DError er))
                     :: VConcrete (DCodePtr (Some c)) :: rest) ->
             {| res_Jsonrpc := "2.0"; res_Id := Some i; Result := None;
                Error_ := Some {| Code := c; Data := None; Message := Error er |} |}
             ∈ out))).
Proof.
  intros Hnot Hin Hid.
  destruct (handleBatchRequest_collects s ctx sched w requests Hnot)
    as (collected & Hret & Hrej & Hsched).
  exists collected, (List.filter has_id collected).
  split; [exact Hret |]. split; [reflexivity |].
  split; [apply writeBatchResponse_filter |].
  assert (Hkeep : forall r, res_Id r = Some i -> r ∈ collected ->
                            r ∈ List.filter has_id collected).
  { intros r Hr Hc. apply list_elem_of_In, filter_In.
    split; [apply list_elem_of_In; exact Hc | unfold has_id; rewrite Hr; reflexivity]. }
  split.
  - intros Hv. apply Hkeep; [reflexivity |]. apply Hrej.
    rewrite <- Hid.
    apply (validate_rejects s requests rq); [| exact Hin].
    intros rs vs. unfold validate_step.
    rewrite bool_decide_eq_false_2 by exact Hv. reflexivity.
  - intros sn mn svc Hv Hp Hs. split.
    + intros Hm. apply Hkeep; [reflexivity |].
      assert (Ho : outcome svc ctx mn (Params rq) (Id rq)
                   = [OnErrChan {| err := method_missing mn (name svc);
                                   code := METHOD_NOT_FOUND; ce_reqId := Id rq |}]).
      { unfold outcome, call. rewrite Hm. reflexivity. }
      pose proof (Hsched rq sn mn svc _ Hin Hv Hp Hs Ho) as He.
      rewrite Hid in He. exact He.
    + intros method Hm. split; [| split].
      * intros v Hc. apply Hkeep; [reflexivity |].
        pose proof (outcome_of_panic svc ctx mn (Params rq) (Id rq) method v Hm Hc)
          as Ho.
        pose proof (Hsched rq sn mn svc _ Hin Hv Hp Hs Ho) as He.
        rewrite Hid in He. exact He.
      * intros r rest d Hc Hr. apply Hkeep; [reflexivity |].
        pose proof (outcome_of_success svc ctx mn (Params rq) (Id rq) method r rest d
                      Hm Hc Hr) as Ho.
        pose proof (Hsched rq sn mn svc _ Hin Hv Hp Hs Ho) as He.
        rewrite Hid in He. exact He.
      * intros r er c rest Hc. apply Hkeep; [reflexivity |].
        pose proof (outcome_of_error svc ctx mn (Params rq) (Id rq) method r er c rest
                      Hm Hc) as Ho.
        pose proof (Hsched rq sn mn svc _ Hin Hv Hp Hs Ho) as He.
        rewrite Hid in He. exact He.
Qed.

Lemma handleBatchRequest_answers_each_id_witness :
  exists collected,
    handleBatchRequest testRpc bg [Recv 1] new_writer [echoRequest; echoRequest2]
    = Returns (writeBatchResponse new_writer collected) /\
    {| res_Jsonrpc := "2.0"; res_Id := Some "1"; Result := Some (Some (DString "hi"));
       Error_ := None |} ∈ List.filter has_id collected.
Proof.
  assert (Hn : scheduled_count testRpc [echoRequest; echoRequest2] = 2%nat)
    by (vm_compute; reflexivity).
  assert (Hnot : CtxDone ∉ take (scheduled_count testRpc [echoRequest; echoRequest2])
                                [Recv 1]).
  { rewrite Hn. intros Hin. apply list_elem_of_In in Hin.
    destruct Hin as [Hin | []]. discriminate. }
  assert (Hin : echoRequest ∈ [echoRequest; echoRequest2]) by left.
  destruct (handleBatchRequest_answers_each_id testRpc bg [Recv 1] new_writer
              [echoRequest; echoRequest2] echoRequest "1" Hnot Hin eq_refl)
    as (collected & out & Hret & -> & _ & _ & Hok).
  exists collected. split; [exact Hret |].
  destruct (Hok "Arith" "Echo" arithSvc eq_refl eq_refl eq_refl) as [_ Hm].
  destruct (Hm (Value_Method Echo) eq_refl) as (_ & Hsucc & _).
  exact (Hsucc (VConcrete (DString "hi")) [VConcrete (DCodePtr None)]
           (Some (DString "hi")) eq_refl eq_refl).
Defined.
